(** * mapsims_tutorials: the notebooks' own computations, embedded and verified

    The repository is four Jupyter notebooks
    ([1_foreground_cmb_releases_nersc], [2_cmb_realizations],
    [3_noise_release], [6_mapsims_CAR_noise_on-the-fly]).  Each cell is a
    short sequence of library calls glued together by a little code of the
    notebook's own: file-name templating, boolean-mask assignment, map
    arithmetic, the sky-fraction correction of a power spectrum.

    This file embeds that glue code:
    - [PyFormat]: [str.format] on the release file-name templates;
    - [Np], [Ma]: numpy arrays on a heap, boolean-mask assignment, masked
      arrays ([numpy.ma] as healpy's [hp.ma] builds them);
    - [Spectra]: polarization amplitude, sky fraction, corrected spectra;
    - [Notebook]: the cells as programs of a small monad that threads the
      file system, an event log and exceptions;
    - [Filenames], [Nb1Check], [Transforms], [ReadProperties]: the file
      lists of notebooks 2 and 3, the hitmap check of notebook 1, and what
      the further properties of Part II are stated with.

    Conventions.  Array elements are real numbers (exact arithmetic stands
    for numpy's float64); where rounding decides a behaviour the same
    definitions are also run on binary64 floats.  A division whose divisor
    is zero has no value ([None]).  External libraries (healpy, mapsims,
    pixell, matplotlib) are parameters of the development. *)

From Stdlib Require Import ZArith List String Ascii Bool Reals Lra Lia.
From Stdlib Require Import DecimalString Floats.
From Stdlib Require DecimalZ.
From stdpp Require Import gmap strings list.

Set Default Proof Using "Type".

(* ================================================================== *)
(** * Part I: definitions *)
(* ================================================================== *)

(** ** Python's [str.format] on the file-name templates *)

Module PyFormat.

Local Open Scope string_scope.

(** A keyword argument's value: the notebooks pass strings and ints. *)
Inductive pyval :=
| PyStr (s : string)
| PyInt (z : Z).

Definition kwargs := list (string * pyval).

(** [str(z)] for a Python int. *)
Definition str_int (z : Z) : string := NilZero.string_of_int (Z.to_int z).

Definition py_str (v : pyval) : string :=
  match v with
  | PyStr s => s
  | PyInt z => str_int z
  end.

(** A template is literal text and replacement fields [{name}] or
    [{name:spec}]. *)
Inductive piece :=
| Lit (s : string)
| Field (name spec : string).

Inductive mode :=
| InLit (acc : string)
| InName (acc : string)
| InSpec (name acc : string).

Definition snoc (s : string) (c : ascii) : string := s ++ String c EmptyString.

Definition is_char (c : ascii) (s : string) : bool :=
  match s with
  | String d EmptyString => Ascii.eqb c d
  | _ => false
  end.

(** The scanner of [str.format]: doubled braces are literal braces, a
    single closing brace in literal text is a [ValueError], a field runs to
    its closing brace and may not end the string.  Conversions ([!r]),
    attribute access and nested fields are not used by the templates and
    are refused here. *)
Fixpoint scan (s : string) (m : mode) : option (list piece) :=
  match s with
  | EmptyString =>
      match m with
      | InLit acc => Some [Lit acc]
      | _ => None
      end
  | String c rest =>
      match m with
      | InLit acc =>
          if is_char c "{" then
            match rest with
            | String c' rest' =>
                if is_char c' "{" then scan rest' (InLit (snoc acc c))
                else option_map (cons (Lit acc)) (scan rest (InName ""))
            | EmptyString => None
            end
          else if is_char c "}" then
            match rest with
            | String c' rest' =>
                if is_char c' "}" then scan rest' (InLit (snoc acc c)) else None
            | EmptyString => None
            end
          else scan rest (InLit (snoc acc c))
      | InName acc =>
          if is_char c "}" then option_map (cons (Field acc "")) (scan rest (InLit ""))
          else if is_char c ":" then scan rest (InSpec acc "")
          else if is_char c "{" || is_char c "!" || is_char c "." || is_char c "[" then None
          else scan rest (InName (snoc acc c))
      | InSpec name acc =>
          if is_char c "}" then option_map (cons (Field name acc)) (scan rest (InLit ""))
          else if is_char c "{" then None
          else scan rest (InSpec name (snoc acc c))
      end
  end.

Definition parse (tmpl : string) : option (list piece) := scan tmpl (InLit "").

(** The part of the format-spec mini-language the templates use:
    an optional [0] flag, an optional width, an optional type [d]. *)
Record fspec := { fs_zero : bool; fs_width : nat; fs_int : bool }.

Definition digit_of (c : ascii) : option nat :=
  let n := nat_of_ascii c in
  if (48 <=? n)%nat && (n <=? 57)%nat then Some (n - 48)%nat else None.

Fixpoint parse_width (s : string) (acc : nat) : nat * string :=
  match s with
  | String c rest =>
      match digit_of c with
      | Some d => parse_width rest (10 * acc + d)
      | None => (acc, s)
      end
  | EmptyString => (acc, s)
  end.

Definition parse_spec (s : string) : option fspec :=
  let '(zero, s1) :=
    match s with
    | String c rest => if is_char c "0" then (true, rest) else (false, s)
    | EmptyString => (false, s)
    end in
  let '(w, s2) := parse_width s1 0 in
  match s2 with
  | EmptyString => Some {| fs_zero := zero; fs_width := w; fs_int := false |}
  | String c EmptyString =>
      if is_char c "d" then Some {| fs_zero := zero; fs_width := w; fs_int := true |}
      else None
  | _ => None
  end.

(** The spec [04d] of the templates. *)
Definition spec_04d : fspec := {| fs_zero := true; fs_width := 4; fs_int := true |}.

Fixpoint repeat_char (c : ascii) (n : nat) : string :=
  match n with
  | O => EmptyString
  | S k => String c (repeat_char c k)
  end.

(** [format(z, spec)] for an int: the [0] flag pads with zeros between the
    sign and the digits, otherwise numbers are right-aligned with blanks. *)
Definition format_int (sp : fspec) (z : Z) : string :=
  let digits := str_int (Z.abs z) in
  let sign := if (z <? 0)%Z then "-" else "" in
  let pad := (fs_width sp - String.length (sign ++ digits))%nat in
  if fs_zero sp then sign ++ repeat_char "0" pad ++ digits
  else repeat_char " " pad ++ sign ++ digits.

(** [format(s, spec)] for a str: type [d] and the [0] flag are
    [ValueError]s, otherwise strings are left-aligned with blanks. *)
Definition format_str (sp : fspec) (s : string) : option string :=
  if fs_int sp || fs_zero sp then None
  else Some (s ++ repeat_char " " (fs_width sp - String.length s)).

Definition format_value (spec : string) (v : pyval) : option string :=
  match spec with
  | EmptyString => Some (py_str v)
  | _ =>
      match parse_spec spec, v with
      | Some sp, PyInt z => Some (format_int sp z)
      | Some sp, PyStr s => format_str sp s
      | None, _ => None
      end
  end.

Fixpoint lookup_kw (name : string) (kw : kwargs) : option pyval :=
  match kw with
  | [] => None
  | (k, v) :: rest => if String.eqb k name then Some v else lookup_kw name rest
  end.

(** Rendering: a field whose name is no keyword is a [KeyError]. *)
Fixpoint render (ps : list piece) (kw : kwargs) : option string :=
  match ps with
  | [] => Some ""
  | Lit s :: rest => option_map (String.append s) (render rest kw)
  | Field name spec :: rest =>
      match lookup_kw name kw with
      | None => None
      | Some v =>
          match format_value spec v, render rest kw with
          | Some s, Some r => Some (s ++ r)
          | _, _ => None
          end
      end
  end.

(** [tmpl.format] applied to keyword arguments [kw]; [None] stands for the
    exception Python raises. *)
Definition format (tmpl : string) (kw : kwargs) : option string :=
  match parse tmpl with
  | Some ps => render ps kw
  | None => None
  end.

(** The signal-release template (notebooks 1, 2 and 3). *)
Definition filename_template : string :=
  "{nside}/{content}/{num:04d}/simonsobs_{content}_uKCMB_{telescope}{band}_nside{nside}_{num:04d}.fits".

(** The noise-release template (notebook 3). *)
Definition noise_filename_template : string :=
  "{content}/{num:04d}/simonsobs_{content}_uKCMB_{tube}_{band}_nside{nside}_{num:04d}_{split}_of_{nsplits}.fits".

(** The call of notebooks 1 and 2:
    [filename_template.format(nside=.., content=.., num=.., telescope=.., band=..)]. *)
Definition signal_path (nside : Z) (content : string) (num : Z)
    (telescope band : string) : option string :=
  format filename_template
    [("nside", PyInt nside); ("content", PyStr content); ("num", PyInt num);
     ("telescope", PyStr telescope); ("band", PyStr band)].

(** The call of notebook 3; [telescope] is passed and not used by the
    template. *)
Definition noise_path (nside : Z) (content : string) (num : Z)
    (telescope tube band : string) (split nsplits : Z) : option string :=
  format noise_filename_template
    [("nside", PyInt nside); ("content", PyStr content); ("num", PyInt num);
     ("telescope", PyStr telescope); ("tube", PyStr tube); ("band", PyStr band);
     ("split", PyInt split); ("nsplits", PyInt nsplits)].

(** The convention's [NNNN]: the four decimal digits of [num], most
    significant first. *)
Definition digit_char (d : Z) : ascii := ascii_of_nat (48 + Z.to_nat d).

Definition NNNN (num : Z) : string :=
  String (digit_char (num / 1000))
    (String (digit_char (num / 100 mod 10))
       (String (digit_char (num / 10 mod 10))
          (String (digit_char (num mod 10)) EmptyString))).

End PyFormat.


(** ** numpy arrays: element types, element-wise operations, the heap *)

Module Np.

(** What the notebooks need of an element type: healpy's sentinel
    [hp.UNSEEN], the test [hp.ma] masks with, addition, zero and the
    comparison [x == 0]. *)
Class Dtype (T : Type) := {
  UNSEEN : T;
  is_unseen : T -> bool;
  add : T -> T -> T;
  zero : T;
  eqz : T -> bool
}.

(** An operation on two arrays of one shape; another length is numpy's
    [ValueError] (or [IndexError] for a boolean index). *)
Definition zip_strict {A B C : Type} (f : A -> B -> C) (a : list A) (b : list B)
    : option (list C) :=
  if decide (length a = length b) then Some (zip_with f a b) else None.

(** The same on two-dimensional arrays, row by row. *)
Definition zip_strict2 {A B C : Type} (f : A -> B -> C)
    (a : list (list A)) (b : list (list B)) : option (list (list C)) :=
  if decide (length a = length b)
  then mapM (M := option) (fun rs => zip_strict f rs.1 rs.2) (zip a b)
  else None.

(** A two-dimensional array against a one-dimensional one, broadcast over
    the rows ([m * hitmaps[0]], [each[:, idx]]). *)
Definition zip_rows {A B C : Type} (f : A -> B -> C) (a : list (list A)) (b : list B)
    : option (list (list C)) :=
  mapM (M := option) (fun row => zip_strict f row b) a.

(** The shape of a two-dimensional array: the length of every row. *)
Definition shape {A : Type} (a : list (list A)) : list nat := length <$> a.

Section Arrays.
Context {T : Type}.

(** [a[idx] = v] for a boolean index [idx]. *)
Definition setitem_mask (a : list T) (idx : list bool) (v : T) : option (list T) :=
  zip_strict (fun x (b : bool) => if b then v else x) a idx.

(** [a[:, idx] = v]. *)
Definition setitem_cols (a : list (list T)) (idx : list bool) (v : T)
    : option (list (list T)) :=
  zip_rows (fun x (b : bool) => if b then v else x) a idx.

(** [np.logical_not]. *)
Definition logical_not (m : list bool) : list bool := negb <$> m.

(** [h == 0]. *)
Definition eq_zero `{Dtype T} (h : list T) : list bool := eqz <$> h.

End Arrays.

(** [h == 0], [h > 0] and [h <= 0] on an array of reals. *)
Definition Req0 (x : R) : bool := if Req_dec_T x 0 then true else false.
Definition Rpos (x : R) : bool := if Rlt_dec 0 x then true else false.
Definition Rnonpos (x : R) : bool := if Rle_dec x 0 then true else false.


(** Arrays are objects on a heap: a name is bound to a location, [copy]
    allocates, an indexed assignment writes in place. *)
Definition loc := positive.
Abbreviation heap T := (gmap loc (list T)).

Section Heap.
Context {T : Type}.

Definition np_copy (h : heap T) (l : loc) : option (loc * heap T) :=
  a ← h !! l;
  let l' := fresh (dom h) in
  Some (l', <[l' := a]> h).

Definition np_setitem_mask (h : heap T) (l : loc) (idx : list bool) (v : T)
    : option (heap T) :=
  a ← h !! l;
  a' ← setitem_mask a idx v;
  Some (<[l := a']> h).

End Heap.

(** The exact-real element type: [hp.UNSEEN = -1.6375e30], and the
    closeness test of [np.ma.masked_values] with healpy's tolerances
    [rtol = 1e-5], [atol = 1e-8]. *)
Definition UNSEEN_R : R := (- (16375 * 10 ^ 26))%R.

Definition is_unseen_R (x : R) : bool :=
  if Rle_dec (Rabs (x - UNSEEN_R)) (/ 10 ^ 8 + / 10 ^ 5 * Rabs UNSEEN_R) then true else false.

#[export] Instance R_dtype : Dtype R :=
  {| UNSEEN := UNSEEN_R; is_unseen := is_unseen_R; add := Rplus; zero := 0%R;
     eqz := Req0 |}.

(** The binary64 element type numpy computes with. *)
Definition UNSEEN_f64 : float := (-0x1.4ab0c40c8402cp+100)%float.

Definition is_unseen_f64 (x : float) : bool :=
  PrimFloat.leb (PrimFloat.abs (x - UNSEEN_f64))
                (0x1.5798ee2308c3ap-27 + 0x1.4f8b588e368f1p-17 * PrimFloat.abs UNSEEN_f64)%float.

#[export] Instance f64_dtype : Dtype float :=
  {| UNSEEN := UNSEEN_f64; is_unseen := is_unseen_f64; add := PrimFloat.add;
     zero := 0%float; eqz := fun x => PrimFloat.eqb x 0%float |}.

End Np.

(** ** Masked arrays ([numpy.ma]) as [hp.ma] builds them *)

Module Ma.
Import Np.

(** A masked array of shape (components, pixels): the data and, for every
    element, whether it is masked ([getmaskarray]). *)
Record marray (T : Type) := MArray {
  ma_data : list (list T);
  ma_mask : list (list bool)
}.
Arguments MArray {T} _ _.
Arguments ma_data {T} _.
Arguments ma_mask {T} _.

Section Masked.
Context {T : Type} `{Dtype T}.

(** Data and mask of a masked array have one shape. *)
Definition ma_wf (a : marray T) : Prop := shape (ma_data a) = shape (ma_mask a).

(** [hp.ma(m)]: the elements close to [UNSEEN] are masked. *)
Definition hp_ma (m : list (list T)) : marray T :=
  MArray m (fmap (M := list) (fmap (M := list) is_unseen) m).

(** [a[:, idx] = v] for a plain value [v]: the data is written and the
    written elements are unmasked ([MaskedArray.__setitem__] with a soft
    mask; only the constant [np.ma.masked] masks). *)
Definition ma_setitem_cols (a : marray T) (idx : list bool) (v : T) : option (marray T) :=
  d ← setitem_cols (ma_data a) idx v;
  k ← setitem_cols (ma_mask a) idx false;
  Some (MArray d k).

(** [a += other] for a plain array [other] ([MaskedArray.__iadd__]):
    [a.data += np.where(a.mask, 0, other)], the mask stays. *)
Definition ma_iadd (a : marray T) (other : list (list T)) : option (marray T) :=
  od ← zip_strict2 (fun (k : bool) y => if k then zero else y) (ma_mask a) other;
  d ← zip_strict2 add (ma_data a) od;
  Some (MArray d (ma_mask a)).

(** [a + b] for a plain array [a] and a masked [b] ([MaskedArray.__radd__],
    that is [np.ma.add(a, b)]): the sum, with the data of [a] copied back
    where [b] is masked, under the mask of [b]. *)
Definition ma_radd (a : list (list T)) (b : marray T) : option (marray T) :=
  r ← zip_strict2 add a (ma_data b);
  ar ← zip_strict2 pair a r;
  d ← zip_strict2 (fun (k : bool) (xy : T * T) => if k then xy.1 else xy.2) (ma_mask b) ar;
  Some (MArray d (ma_mask b)).

End Masked.
End Ma.

(** ** Notebook 1: display masks of the polarization amplitude *)

Module Nb1.
Import Np.

Section Cells.
Context {T H : Type} `{Dtype T} `{Dtype H}.

(** [m_P_masked = m_P.copy(); m_P_masked[np.logical_not(mask)] = hp.UNSEEN];
    [m_P] is the location the name is bound to, the result the heap and
    the location of [m_P_masked]. *)
Definition cell_galactic_mask (h : heap T) (m_P : loc) (mask : list bool)
    : option (loc * heap T) :=
  '(m_P_masked, h1) ← np_copy h m_P;
  h2 ← np_setitem_mask h1 m_P_masked (logical_not mask) UNSEEN;
  Some (m_P_masked, h2).

(** [m_P_survey = m_P.copy(); m_P_survey[hitmaps[0] == 0] = hp.UNSEEN]. *)
Definition cell_survey_cut (h : heap T) (m_P : loc) (hitmaps : list (list H))
    : option (loc * heap T) :=
  '(m_P_survey, h1) ← np_copy h m_P;
  hit0 ← hitmaps !! 0%nat;
  h2 ← np_setitem_mask h1 m_P_survey (eq_zero hit0) UNSEEN;
  Some (m_P_survey, h2).

(** The same assignment through a second name for the same array
    ([m_P_survey = m_P], no copy): what the cells would do without
    [.copy()]. *)
Definition cell_survey_cut_aliased (h : heap T) (m_P : loc) (hitmaps : list (list H))
    : option (loc * heap T) :=
  hit0 ← hitmaps !! 0%nat;
  h2 ← np_setitem_mask h m_P (eq_zero hit0) UNSEEN;
  Some (m_P, h2).

End Cells.
End Nb1.

(** ** Notebook 2: scanning cut and co-addition on masked CMB maps *)

Module Nb2.
Import Np Ma.

Section Cells.
Context {T H : Type} `{Dtype T} `{Dtype H}.

(** [maps = [hp.ma(hp.read_map(filename, (0,1,2))) for filename in filenames]],
    given what [hp.read_map] returned. *)
Definition load (raw : list (list (list T))) : list (marray T) := hp_ma <$> raw.

(** [for each in maps: each[:, hitmaps[0] == 0] = hp.UNSEEN]. *)
Definition scan_cut (maps : list (marray T)) (hitmaps : list (list H))
    : option (list (marray T)) :=
  hit0 ← hitmaps !! 0%nat;
  mapM (M := option) (fun each => ma_setitem_cols each (eq_zero hit0) UNSEEN) maps.

(** [for each in maps: each += dust]. *)
Definition add_dust (maps : list (marray T)) (dust : list (list T))
    : option (list (marray T)) :=
  mapM (M := option) (fun each => ma_iadd each dust) maps.

(** The three cells in sequence. *)
Definition pipeline (raw : list (list (list T))) (hitmaps : list (list H))
    (dust : list (list T)) : option (list (marray T)) :=
  maps ← scan_cut (load raw) hitmaps;
  add_dust maps dust.

End Cells.
End Nb2.

(** ** Real-valued array arithmetic of the notebooks *)

Module Arith.
Import Np.
Local Open Scope R_scope.

(** [a ** 2], [np.sqrt(a)], [np.sum(a)] on one- and two-dimensional arrays. *)
Definition np_square (a : list R) : list R := (fun x => x ^ 2) <$> a.
Definition np_sqrt (a : list R) : list R := R_sqrt.sqrt <$> a.
Definition np_sum (a : list R) : R := foldr Rplus 0 a.
Definition np_square2 (a : list (list R)) : list (list R) := np_square <$> a.
Definition np_sqrt2 (a : list (list R)) : list (list R) := np_sqrt <$> a.
Definition np_sum2 (a : list (list R)) : R := np_sum (np_sum <$> a).

(** Division: a zero divisor gives no real number (numpy yields [inf] or
    [nan] and warns). *)
Definition rdiv (x y : R) : option R :=
  if Req_dec_T y 0 then None else Some (x / y).

(** An array divided by a scalar, element by element. *)
Definition div_scalar (a : list R) (d : R) : option (list R) :=
  mapM (M := option) (fun c => rdiv c d) a.
Definition div_scalar2 (a : list (list R)) (d : R) : option (list (list R)) :=
  mapM (M := option) (fun row => div_scalar row d) a.

(** Two arrays of one shape divided element by element. *)
Definition div_arrays2 (a b : list (list R)) : option (list (list R)) :=
  match zip_strict2 rdiv a b with
  | Some q => mapM (M := option) (mapM (M := option) (fun c : option R => c)) q
  | None => None
  end.

(** [np.mean(a)]. *)
Definition np_mean (a : list R) : option R := rdiv (np_sum a) (INR (length a)).

(** [b.sum()] for a boolean array: the number of [True]. *)
Definition count_true (b : list bool) : nat :=
  foldr (fun (x : bool) n => if x then S n else n) 0%nat b.

(** The order of the reals is decidable: [filter] can count the hit pixels. *)
#[export] Instance Rlt_decision : RelDecision Rlt := Rlt_dec.

(** [h > 0] and [h <= 0]. *)
Definition gt_zero (h : list R) : list bool := Rpos <$> h.
Definition le_zero2 (a : list (list R)) : list (list bool) := fmap (M := list) Rnonpos <$> a.

End Arith.

(** ** Notebook 1: polarization amplitude *)

Module Nb1Amplitude.
Import Np Arith.
Local Open Scope R_scope.

(** [m_P = np.sqrt(m[1]**2 + m[2]**2)] for the map [m] that
    [hp.read_map(filename, (0,1,2))] returned. *)
Definition m_P (m : list (list R)) : option (list R) :=
  q ← m !! 1%nat;
  u ← m !! 2%nat;
  s ← zip_strict Rplus (np_square q) (np_square u);
  Some (np_sqrt s).

End Nb1Amplitude.

(** ** Notebook 3: sky fraction, corrected spectra, co-addition *)

Module Nb3.
Import Np Ma Arith.
Local Open Scope R_scope.

(** [sky_fraction = (hitmaps[0] > 0).sum() / len(hitmaps[0])]. *)
Definition sky_fraction (hitmaps : list (list R)) : option R :=
  hit0 ← hitmaps !! 0%nat;
  rdiv (INR (count_true (gt_zero hit0))) (INR (length hit0)).

Section Spectra.
(** [hp.anafast(m, iter=...)]: from the three Stokes maps to the six
    spectra. *)
Variable anafast : list (list R) -> Z -> list (list R).

(** [hp.anafast(m * hitmaps[0], iter=0) / np.mean(hitmaps[0]**2) / sky_fraction]. *)
Definition cl_of_map (hitmaps : list (list R)) (sky_fraction : R)
    (m : list (list R)) : option (list (list R)) :=
  hit0 ← hitmaps !! 0%nat;
  mh ← zip_rows Rmult m hit0;
  let cl := anafast mh 0%Z in
  hit0' ← hitmaps !! 0%nat;
  mu ← np_mean (np_square hit0');
  x ← div_scalar2 cl mu;
  div_scalar2 x sky_fraction.

(** [cls = [... for m in maps]], with the sky fraction of the cell before. *)
Definition cls (maps : list (list (list R))) (hitmaps : list (list R))
    : option (list (list (list R))) :=
  sf ← sky_fraction hitmaps;
  mapM (M := option) (cl_of_map hitmaps sf) maps.

End Spectra.

(** [foregrounds_cmb = hp.ma(hp.read_map(filename, (0,1,2)))] and
    [maps = [each + foregrounds_cmb for each in maps]]: the noise maps are
    plain arrays, the foreground map is masked. *)
Definition add_foregrounds {T : Type} `{Dtype T}
    (maps : list (list (list T))) (fg : list (list T)) : option (list (marray T)) :=
  let foregrounds_cmb := hp_ma fg in
  mapM (M := option) (fun each => ma_radd each foregrounds_cmb) maps.

End Nb3.

(** ** Notebook 6: the spectrum of the standardized CAR map *)

Module Nb6.
Import Np Arith.
Local Open Scope R_scope.

(** The mask in the specification's words: one where the inverse variance
    is positive, zero elsewhere. *)
Definition indicator (v : R) : R := if Rpos v then 1 else 0.

(** [mask = ivar1*0 + 1; mask[ivar1<=0] = 0]. *)
Definition car_mask (ivar1 : list (list R)) : option (list (list R)) :=
  let mask := fmap (M := list) (fun x => x * 0 + 1) <$> ivar1 in
  zip_strict2 (fun x (b : bool) => if b then 0 else x) mask (le_zero2 ivar1).

(** [w2 = np.sum((mask**2)*pmap) /np.pi / 4.]. *)
Definition w2 (ivar1 pmap : list (list R)) : option R :=
  mask ← car_mask ivar1;
  prod ← zip_strict2 Rmult (np_square2 mask) pmap;
  x ← rdiv (np_sum2 prod) PI;
  rdiv x 4.

(** [np.sqrt(ivar1/pmap)*tmap1], the standardized map. *)
Definition standardized (ivar1 pmap tmap1 : list (list R)) : option (list (list R)) :=
  q ← div_arrays2 ivar1 pmap;
  zip_strict2 Rmult (np_sqrt2 q) tmap1.

Section Spectra.
Context {alm : Type}.
(** [cs.map2alm(map, lmax=...)] and [hp.alm2cl]. *)
Variable map2alm : list (list R) -> Z -> alm.
Variable alm2cl : alm -> list R.

(** [alm = cs.map2alm(np.sqrt(ivar1/pmap)*tmap1,lmax=500)], the mask and
    [w2], and [cls = hp.alm2cl(alm) / w2]. *)
Definition cls (ivar1 pmap tmap1 : list (list R)) : option (list R) :=
  s ← standardized ivar1 pmap tmap1;
  let alm := map2alm s 500%Z in
  w ← w2 ivar1 pmap;
  div_scalar (alm2cl alm) w.

End Spectra.
End Nb6.

(** ** Cells as programs: file system, event log, exceptions *)

Module Notebook.
Import Np Ma Arith.
Local Open Scope string_scope.

(** A Python exception: its type and message. *)
Record exn := Exn { exn_type : string; exn_msg : string }.

(** The values the cells handle.  [OLib] is an object owned by a library
    (a simulator, a quantity, a geometry, a set of [alm]); the notebooks only
    pass such objects back to the library. *)
#[warnings="-register-all"]
Inductive pyobj :=
| ONone
| OInt (z : Z)
| OFloat (x : R)
| OStr (s : string)
| OChannel (telescope tube band tag : string)
| OArr (a : list R)
| OArr2 (a : list (list R))
| OBools (a : list bool)
| OMasked (a : marray R)
| OSeq (l : list pyobj)
| OLib (kind : string) (id : nat).

(** What a library call does: it returns or it raises. *)
Inductive outcome :=
| Returns (v : pyobj)
| Raises (e : exn).

(** The release tree on the shared file system. *)
Definition release_root : string := "/project/projectdirs/sobs/v4_sims/mbs/".
Definition under_release (path : string) : bool := String.prefix release_root path.

(** The external libraries: what each call gives on its arguments, and the
    files it stores in its local cache (mapsims downloads hitmaps and caches
    them on disk on first use).  The cache is not in the release tree. *)
Class Libs := {
  lib_call : string -> list pyobj -> outcome;
  lib_cache : string -> list pyobj -> list (string * pyobj);
  lib_cache_outside :
    forall f args, Forall (fun pc => under_release pc.1 = false) (lib_cache f args)
}.

(** What a run leaves in the log. *)
Inductive event :=
| EvCall (name : string)
| EvOp (op : string)
| EvRead (path : string)
| EvList (path : string)
| EvWrite (path : string)
| EvRaise (src : string) (e : exn).

Record world := World {
  w_fs : gmap string pyobj;
  w_log : list event
}.

(** A cell ends with a value, with an exception, or at a point where exact
    arithmetic has no value (numpy goes on with [inf] or [nan] there). *)
Inductive result (A : Type) :=
| Ok (a : A)
| Raise (e : exn)
| NoValue.
Arguments Ok {A} _.
Arguments Raise {A} _.
Arguments NoValue {A}.

Definition NB (A : Type) : Type := world -> result A * world.

Definition ret {A : Type} (a : A) : NB A := fun w => (Ok a, w).

Definition bind {A B : Type} (m : NB A) (k : A -> NB B) : NB B :=
  fun w =>
    match m w with
    | (Ok a, w') => k a w'
    | (Raise e, w') => (Raise e, w')
    | (NoValue, w') => (NoValue, w')
    end.

Declare Scope nb_scope.
Delimit Scope nb_scope with nb.
Notation "x <- m ;; k" := (bind m (fun x => k))
  (at level 100, m at next level, right associativity) : nb_scope.
Notation "m ;; k" := (bind m (fun _ => k))
  (at level 100, right associativity) : nb_scope.
Local Open Scope nb_scope.

Definition emit (ev : event) : NB unit :=
  fun w => (Ok tt, World (w_fs w) (w_log w ++ [ev])).

(** [raise]: the exception is logged with its source and ends the run. *)
Definition raise {A : Type} (src : string) (e : exn) : NB A :=
  fun w => (Raise e, World (w_fs w) (w_log w ++ [EvRaise src e])).

Definition no_value {A : Type} : NB A := fun w => (NoValue, w).

(** [try: m except Exception as e: handler(e)].  The notebooks have no such
    statement; it is here to state what its absence means. *)
Definition try_except {A : Type} (m : NB A) (handler : exn -> NB A) : NB A :=
  fun w =>
    match m w with
    | (Raise e, w') => handler e w'
    | other => other
    end.

Definition write_file (pc : string * pyobj) : NB unit :=
  fun w => (Ok tt, World (<[pc.1 := pc.2]> (w_fs w)) (w_log w ++ [EvWrite pc.1])).

Fixpoint for_each {A : Type} (l : list A) (body : A -> NB unit) : NB unit :=
  match l with
  | [] => ret tt
  | x :: rest => body x ;; for_each rest body
  end.

Fixpoint list_comp {A B : Type} (l : list A) (f : A -> NB B) : NB (list B) :=
  match l with
  | [] => ret []
  | x :: rest => y <- f x ;; ys <- list_comp rest f ;; ret (y :: ys)
  end.

Section WithLibs.
Context `{Libs}.

(** A call into a library: logged, its cache files written, its outcome
    returned or raised. *)
Definition call (name : string) (args : list pyobj) : NB pyobj :=
  emit (EvCall name) ;;
  for_each (lib_cache name args) write_file ;;
  match lib_call name args with
  | Returns v => ret v
  | Raises e => raise name e
  end.

(** [hp.read_map(path, ...)]: the file is opened for reading; a missing
    file is the library's [FileNotFoundError], a present one is decoded by
    the library. *)
Definition read_map (path : string) (opts : list pyobj) : NB pyobj :=
  emit (EvCall "hp.read_map") ;;
  emit (EvRead path) ;;
  fun w =>
    match w_fs w !! path with
    | None => raise "hp.read_map" (Exn "FileNotFoundError" path) w
    | Some content =>
        match lib_call "hp.read_map" (content :: opts) with
        | Returns v => ret v w
        | Raises e => raise "hp.read_map" e w
        end
    end.

End WithLibs.

(** [!ls path]: the directory is listed; a shell command raises nothing. *)
Definition shell_ls (path : string) : NB unit := emit (EvList path).

(** An operator written in a cell, on values of the model: [None] is the
    exception numpy or Python raises for operands it cannot combine. *)
Definition op {A : Type} (name : string) (e : exn) (r : option A) : NB A :=
  emit (EvOp name) ;;
  match r with
  | Some a => ret a
  | None => raise name e
  end.

(** A real-valued result that exists only for a non-zero divisor. *)
Definition defined {A : Type} (r : option A) : NB A :=
  match r with
  | Some a => ret a
  | None => no_value
  end.

(** A division written in a cell: a zero divisor leaves no value. *)
Definition op_div {A : Type} (r : option A) : NB A :=
  emit (EvOp "/") ;; defined r.

(** A numpy or healpy function whose result the model computes. *)
Definition np_call {A : Type} (name : string) (e : exn) (r : option A) : NB A :=
  emit (EvCall name) ;;
  match r with
  | Some a => ret a
  | None => raise name e
  end.

(** Subscripts, attributes and unpacking: a wrong kind of object raises. *)
Definition expect {A : Type} (src : string) (e : exn) (r : option A) : NB A :=
  match r with
  | Some a => ret a
  | None => raise src e
  end.

Definition ValueError : exn := Exn "ValueError" "operands could not be broadcast together".
Definition IndexError : exn := Exn "IndexError" "index out of range".
Definition TypeError : exn := Exn "TypeError" "unsupported operand".
Definition AttributeError : exn := Exn "AttributeError" "no such attribute".
Definition KeyError : exn := Exn "KeyError" "format field".

Definition getitem (v : pyobj) (i : nat) : NB pyobj :=
  match v with
  | OSeq l => expect "[]" IndexError (l !! i)
  | OArr2 a => expect "[]" IndexError (OArr <$> a !! i)
  | OArr a => expect "[]" IndexError (OFloat <$> a !! i)
  | OMasked a => expect "[]" IndexError (OArr <$> ma_data a !! i)
  | _ => raise "[]" TypeError
  end.

Definition as_arr (v : pyobj) : NB (list R) :=
  match v with OArr a => ret a | _ => raise "ndarray" TypeError end.
Definition as_arr2 (v : pyobj) : NB (list (list R)) :=
  match v with OArr2 a => ret a | _ => raise "ndarray" TypeError end.
Definition as_bools (v : pyobj) : NB (list bool) :=
  match v with OBools a => ret a | _ => raise "ndarray" TypeError end.
Definition as_float (v : pyobj) : NB R :=
  match v with
  | OFloat x => ret x
  | OInt z => ret (IZR z)
  | _ => raise "float" TypeError
  end.
Definition as_int (v : pyobj) : NB Z :=
  match v with OInt z => ret z | _ => raise "int" TypeError end.
Definition as_seq (v : pyobj) : NB (list pyobj) :=
  match v with OSeq l => ret l | _ => raise "iter" TypeError end.

(** [a, b = v], and the same for three and for six names: another number
    of values is a [ValueError]. *)
Definition UnpackError : exn := Exn "ValueError" "wrong number of values to unpack".
Definition unpack2 (v : pyobj) : NB (pyobj * pyobj) :=
  match v with
  | OSeq [a; b] => ret (a, b)
  | _ => raise "unpack" UnpackError
  end.
Definition unpack3 (v : pyobj) : NB (pyobj * pyobj * pyobj) :=
  match v with
  | OSeq [a; b; c] => ret (a, b, c)
  | _ => raise "unpack" UnpackError
  end.
Definition unpack6 (v : pyobj) : NB (list pyobj) :=
  match v with
  | OSeq [a; b; c; d; e; f] => ret [a; b; c; d; e; f]
  | _ => raise "unpack" UnpackError
  end.

(** An operator evaluated once for every element of a loop. *)
Definition emit_each {A : Type} (l : list A) (ev : event) : NB unit :=
  for_each l (fun _ => emit ev).

(** The attributes of a channel the cells read. *)
Record channel := Channel {
  ch_telescope : string; ch_tube : string; ch_band : string; ch_tag : string
}.
Definition as_channel (v : pyobj) : NB channel :=
  match v with
  | OChannel t u b g => ret (Channel t u b g)
  | _ => raise "getattr" AttributeError
  end.

(** [str.lower] on ASCII letters. *)
Definition lower_char (c : ascii) : ascii :=
  let n := nat_of_ascii c in
  if (65 <=? n)%nat && (n <=? 90)%nat then ascii_of_nat (n + 32) else c.
Fixpoint lower (s : string) : string :=
  match s with
  | EmptyString => EmptyString
  | String c rest => String (lower_char c) (lower rest)
  end.

(** [Path(a) / b]: an absolute [b] replaces [a]; otherwise [b] is appended
    after one slash ([Path] drops a trailing slash of [a]). *)
Fixpoint strip_slash (s : string) : string :=
  match s with
  | EmptyString => EmptyString
  | String c rest =>
      match strip_slash rest with
      | EmptyString => if Ascii.eqb c "/" then EmptyString else String c EmptyString
      | r => String c r
      end
  end.
Definition path_join (a b : string) : string :=
  match b with
  | String c _ => if Ascii.eqb c "/" then b else strip_slash a ++ "/" ++ b
  | EmptyString => strip_slash a
  end.

(** [tmpl.format(...)] in a cell. *)
Definition format_path (r : option string) : NB string :=
  np_call "str.format" KeyError r.

End Notebook.

(** ** The four notebooks, cell by cell *)

Module Programs.
Import Np Ma Arith PyFormat Notebook.
Local Open Scope string_scope.
Local Open Scope nb_scope.

(** Constants of the libraries' modules. *)
Definition u_deg : pyobj := OLib "astropy.unit" 0.
Definition u_uK_CMB : pyobj := OLib "astropy.unit" 1.
Definition u_uK_RJ : pyobj := OLib "astropy.unit" 2.
Definition u_MJy : pyobj := OLib "astropy.unit" 3.
Definition u_sr : pyobj := OLib "astropy.unit" 4.

Section WithLibs.
Context `{Libs}.

(** An operator applied to objects of a library (a quantity times a unit,
    a noise curve times a number): written in the cell, computed by the
    library. *)
Definition lib_op (name : string) (args : list pyobj) : NB pyobj :=
  emit (EvOp name) ;; call ("operator" ++ name) args.

Definition attr (obj : pyobj) (name : string) : NB pyobj :=
  call "getattr" [obj; OStr name].

(** *** 1_foreground_cmb_releases_nersc *)

Definition nb1_folder : string :=
  "/project/projectdirs/sobs/v4_sims/mbs/201906_highres_foregrounds_extragalactic_tophat".
Definition nb1_mask_folder : string :=
  "/project/projectdirs/sobs/v4_sims/mbs/201904_highres_foregrounds_equatorial/512/masks".
Definition nb1_mask_filename : string := "mask_equatorial_pol_thr4p0_fsky0p71_ns512.fits".

(** [m_P_masked = m_P.copy(); m_P_masked[np.logical_not(mask)] = hp.UNSEEN],
    on a heap that holds [m_P]. *)
Definition nb1_masked (m_P : list R) (mask : list bool) : NB (list R) :=
  emit (EvCall "ndarray.copy") ;;
  emit (EvCall "np.logical_not") ;;
  r <- expect "[]=" IndexError
         (Nb1.cell_galactic_mask (T := R) {[ 1%positive := m_P ]} 1%positive mask) ;;
  expect "[]=" IndexError (r.2 !! r.1).

(** [m_P_survey = m_P.copy(); m_P_survey[hitmaps[0] == 0] = hp.UNSEEN]. *)
Definition nb1_survey (m_P : list R) (hitmaps : list (list R)) : NB (list R) :=
  emit (EvCall "ndarray.copy") ;;
  emit (EvOp "==") ;;
  r <- expect "[]=" IndexError
         (Nb1.cell_survey_cut (T := R) (H := R) {[ 1%positive := m_P ]} 1%positive hitmaps) ;;
  expect "[]=" IndexError (r.2 !! r.1).

Definition nb1 : NB unit :=
  channels <- call "mapsims.parse_channels" [OStr "tube:ST0"] ;;
  call "print" [channels] ;;
  c0 <- getitem channels 0 ;;
  channel_obj <- getitem c0 0 ;;
  beam <- attr channel_obj "beam" ;;
  center_frequency <- attr channel_obj "center_frequency" ;;
  beam' <- attr channel_obj "beam" ;;
  call "Quantity.to" [beam'; u_deg] ;;
  chs <- call "mapsims.parse_channels" [OStr "telescope:SA"] ;;
  chs' <- as_seq chs ;;
  for_each chs' (fun ch => call "print" [ch] ;; ret tt) ;;
  call "mapsims.parse_channels" [OStr "030"; OStr "planck_deltabandpass"] ;;
  all_so <- call "mapsims.parse_channels" [OStr "all"] ;;
  all_planck <- call "mapsims.parse_channels" [OStr "all"; OStr "planck_deltabandpass"] ;;
  all_so' <- as_seq all_so ;;
  all_planck' <- as_seq all_planck ;;
  emit (EvOp "+") ;;
  for_each (all_so' ++ all_planck')
    (fun ch =>
       t <- attr ch "telescope" ;;
       b <- attr ch "beam" ;;
       f <- attr ch "center_frequency" ;;
       call "print" [t; ch; b; f] ;; ret tt) ;;
  q <- lib_op "*" [OInt 100; u_uK_CMB] ;;
  cf <- attr channel_obj "center_frequency" ;;
  eq <- call "u.cmb_equivalencies" [cf] ;;
  call "Quantity.to" [q; u_uK_RJ; eq] ;;
  q' <- lib_op "*" [OInt 100; u_uK_CMB] ;;
  unit <- lib_op "/" [u_MJy; u_sr] ;;
  cf' <- attr channel_obj "center_frequency" ;;
  eq' <- call "u.cmb_equivalencies" [cf'] ;;
  call "Quantity.to" [q'; unit; eq'] ;;
  let folder := nb1_folder in
  shell_ls (folder ++ "/512") ;;
  channel <- as_channel channel_obj ;;
  name <- format_path
            (signal_path 512 "combined" 0 (lower (ch_telescope channel)) (ch_band channel)) ;;
  let filename := path_join folder name in
  call "print" [OStr filename] ;;
  m_obj <- read_map filename [OSeq [OInt 0; OInt 1; OInt 2]] ;;
  m <- as_arr2 m_obj ;;
  emit (EvOp "**") ;; emit (EvOp "**") ;; emit (EvOp "+") ;;
  m_P <- np_call "np.sqrt" IndexError (Nb1Amplitude.m_P m) ;;
  call "hp.mollview" [OArr m_P; OInt 0; OInt 300;
                      OStr ("Polarization amplitude: " ++ ch_tag channel); OStr "uK_CMB"] ;;
  shell_ls nb1_mask_folder ;;
  let mask_filename := nb1_mask_filename in
  emit (EvOp "+") ;;
  mask_obj <- read_map (nb1_mask_folder ++ "/" ++ mask_filename) [OStr "np.bool"] ;;
  mask <- as_bools mask_obj ;;
  call "hp.mollview" [OBools mask; OStr "CG"] ;;
  m_P_masked <- nb1_masked m_P mask ;;
  call "hp.mollview" [OArr m_P_masked] ;;
  noise <- call "mapsims.SONoiseSimulator" [OInt 512] ;;
  hm <- call "SONoiseSimulator.get_hitmaps" [noise; OStr (ch_tube channel)] ;;
  ha <- unpack2 hm ;;
  hitmaps <- as_arr2 ha.1 ;;
  h0 <- expect "[]" IndexError (hitmaps !! 0%nat) ;;
  h1 <- expect "[]" IndexError (hitmaps !! 1%nat) ;;
  d <- op "-" ValueError (zip_strict Rminus h0 h1) ;;
  emit (EvCall "ndarray.sum") ;;
  m_P_survey <- nb1_survey m_P hitmaps ;;
  call "hp.mollview" [OArr m_P_survey] ;;
  ret tt.

(** *** 2_cmb_realizations *)

Definition nb2_folder : string := "/project/projectdirs/sobs/v4_sims/mbs/201911_lensed_cmb".


(** *** 3_noise_release *)

Definition nb3_folder : string := "/project/projectdirs/sobs/v4_sims/mbs/".
Definition nb3_release : string := "202006_noise".

(** The spectra cell, one map:
    [hp.anafast(m * hitmaps[0], iter=0) / np.mean(hitmaps[0]**2) / sky_fraction]. *)
Definition nb3_cl_of_map (hitmaps : list (list R)) (sky_fraction : R)
    (m : list (list R)) : NB (list (list R)) :=
  hit0 <- expect "[]" IndexError (hitmaps !! 0%nat) ;;
  mh <- op "*" ValueError (zip_rows Rmult m hit0) ;;
  cl_obj <- call "hp.anafast" [OArr2 mh; OInt 0] ;;
  cl <- as_arr2 cl_obj ;;
  hit0' <- expect "[]" IndexError (hitmaps !! 0%nat) ;;
  h2 <- op "**" ValueError (Some (np_square hit0')) ;;
  emit (EvCall "np.mean") ;;
  mu <- defined (np_mean h2) ;;
  x <- op_div (div_scalar2 cl mu) ;;
  op_div (div_scalar2 x sky_fraction).

(** [sky_fraction = (hitmaps[0] > 0).sum() / len(hitmaps[0])]. *)
Definition nb3_sky_fraction (hitmaps : list (list R)) : NB R :=
  hit0 <- expect "[]" IndexError (hitmaps !! 0%nat) ;;
  emit (EvOp ">") ;;
  emit (EvCall "ndarray.sum") ;;
  emit (EvCall "len") ;;
  op_div (Nb3.sky_fraction hitmaps).


(** *** 6_mapsims_CAR_noise_on-the-fly *)

(** [plot = lambda x,**kwargs: enplot.show(enplot.plot(x, ...))]. *)
Definition nb6_plot (x : pyobj) (kwargs : list pyobj) : NB unit :=
  p <- call "enplot.plot" (x :: kwargs) ;;
  call "enplot.show" [p] ;;
  ret tt.

(** [np.sqrt(ivar1/pmap)*tmap1]. *)
Definition nb6_standardized (ivar1 pmap tmap1 : list (list R)) : NB (list (list R)) :=
  q0 <- op "/" ValueError (zip_strict2 rdiv ivar1 pmap) ;;
  q <- defined (mapM (M := option) (mapM (M := option) (fun c : option R => c)) q0) ;;
  emit (EvCall "np.sqrt") ;;
  op "*" ValueError (zip_strict2 Rmult (np_sqrt2 q) tmap1).

(** The spectrum cell up to [cls = hp.alm2cl(alm) / w2]. *)
Definition nb6_cls (ivar1 pmap tmap1 : list (list R)) : NB (list R) :=
  s <- nb6_standardized ivar1 pmap tmap1 ;;
  alm <- call "cs.map2alm" [OArr2 s; OInt 500] ;;
  emit (EvOp "*") ;; emit (EvOp "+") ;; emit (EvOp "<=") ;;
  mask <- expect "[]=" IndexError (Nb6.car_mask ivar1) ;;
  nb6_plot (OArr2 mask) [OStr "gray"] ;;
  emit (EvOp "**") ;;
  prod <- op "*" ValueError (zip_strict2 Rmult (np_square2 mask) pmap) ;;
  emit (EvCall "np.sum") ;;
  x <- op_div (rdiv (np_sum2 prod) PI) ;;
  w2 <- op_div (rdiv x 4) ;;
  call "print" [OFloat w2] ;;
  cl_obj <- call "hp.alm2cl" [alm] ;;
  cl <- as_arr cl_obj ;;
  op_div (div_scalar cl w2).

Definition nb6_axes : NB unit :=
  call "plt.xlabel" [OStr "$\\ell$"] ;;
  call "plt.ylabel" [OStr "$C_{\\ell}$"] ;;
  call "plt.yscale" [OStr "log"] ;;
  call "plt.xscale" [OStr "log"] ;;
  call "plt.ylim" [OFloat (1 / 10); OInt 6] ;;
  call "plt.xlim" [OInt 10; OInt 500] ;;
  call "plt.show" [] ;;
  ret tt.

(** [omap[0][0][0]] and [omap[0,0,0]] on the five-dimensional map the
    simulator returns: the subscript is the library's. *)
Definition nb6_first (omap : pyobj) : NB pyobj :=
  call "ndmap.__getitem__" [omap; OInt 0; OInt 0; OInt 0].


End WithLibs.
End Programs.

(** ** What is asked of a run *)

Module RunProperties.
Import Notebook.
Local Open Scope nb_scope.

Definition is_raise (ev : event) : Prop :=
  match ev with EvRaise _ _ => True | _ => False end.

(** No exception was raised during these events. *)
Definition quiet (evs : list event) : Prop := Forall (fun ev => ~ is_raise ev) evs.

(** The result of a run agrees with its log: a run ends with an exception
    exactly when its last event is the raising of that exception, and
    nothing was raised before. *)
Definition outcome_matches {A : Type} (r : result A) (evs : list event) : Prop :=
  match r with
  | Raise e => exists pre src, evs = pre ++ [EvRaise src e] /\ quiet pre
  | _ => quiet evs
  end.

(** An event that leaves the release tree as it is. *)
Definition ev_safe (ev : event) : Prop :=
  match ev with
  | EvWrite p => under_release p = false
  | _ => True
  end.

Definition release_untouched (w w' : world) : Prop :=
  forall p, under_release p = true -> w_fs w' !! p = w_fs w !! p.

(** A program that raises what its calls raise, and writes nothing under
    the release tree. *)
Definition well_behaved {A : Type} (m : NB A) : Prop :=
  forall w, exists evs,
    w_log (m w).2 = w_log w ++ evs
    /\ outcome_matches (m w).1 evs
    /\ Forall ev_safe evs
    /\ release_untouched w (m w).2.





End RunProperties.

(** ** Concrete libraries and inputs *)

Module Inputs.
Import Np Ma Notebook Programs.
Local Open Scope R_scope.


(** Libraries for concrete runs: [parse_channels] gives one tube with one
    channel, every other call returns an empty sequence, and
    [get_hitmaps] caches a file in the home directory. *)
Definition demo_call (name : String.string) (args : list pyobj) : outcome :=
  if String.eqb name "mapsims.parse_channels"
  then Returns (OSeq [OSeq [OChannel "SA" "ST0" "UHF1" "ST0_UHF1"]])
  else if String.eqb name "hp.anafast" then Returns (OArr2 [[5]])
  else Returns (OSeq []).

Definition demo_cache (name : String.string) (args : list pyobj)
    : list (String.string * pyobj) :=
  if String.eqb name "SONoiseSimulator.get_hitmaps"
  then [("/global/homes/u/user/.astropy/cache/ST0_hitmap.fits"%string, ONone)]
  else [].

Definition demo_libs : Libs :=
  {| lib_call := demo_call; lib_cache := demo_cache;
     lib_cache_outside :=
       fun f _ =>
         match String.eqb f "SONoiseSimulator.get_hitmaps" as b
           return Forall (fun pc => under_release pc.1 = false)
                         (if b
                          then [("/global/homes/u/user/.astropy/cache/ST0_hitmap.fits"%string,
                                 ONone)]
                          else [])
         with
         | true => ltac:(repeat constructor)
         | false => ltac:(constructor)
         end |}.

(** Libraries whose every call raises. *)
Definition failing_libs : Libs :=
  {| lib_call := fun _ _ => Raises (Exn "RuntimeError" "library failure");
     lib_cache := fun _ _ => [];
     lib_cache_outside := fun _ _ => List.Forall_nil _ |}.

Definition empty_world : world := World ∅ [].

(** A binary64 run at nside 1 (12 pixels, three Stokes components): pixel 0
    has no hit, and the dust map holds the sentinel there (a dust map with a
    missing pixel). *)
Definition cmb_nside1 : list (list (list float)) :=
  [replicate 3 (replicate 12 1%float)].
Definition hitmaps_nside1 : list (list float) :=
  replicate 2 (0%float :: replicate 11 1%float).
Definition dust_nside1 : list (list float) :=
  replicate 3 (UNSEEN_f64 :: replicate 11 2%float).

End Inputs.

(** ** The lists of release files notebooks 2 and 3 build *)

Module Filenames.
Import PyFormat Notebook Programs.
Local Open Scope string_scope.

(** Notebook 2:
    [filenames = [Path(folder) / filename_template.format(nside=512, content="cmb", num=num,
                    telescope=channel.telescope.lower(), band=channel.band)
                  for num in range(10)]]. *)
Definition nb2_filenames (telescope band : string) : option (list string) :=
  mapM (M := option)
    (fun num =>
       match signal_path 512 "cmb" num (lower telescope) band with
       | Some name => Some (path_join nb2_folder name)
       | None => None
       end)
    (Z.of_nat <$> seq 0 10).

(** Notebook 3, one entry:
    [Path(folder) / release / filename_template.format(nside=nside, content="noise", num=0,
       telescope=channel.telescope, tube=channel.tube, band=channel.band,
       split=split, nsplits=nsplits)]. *)
Definition nb3_filename (nside : Z) (telescope tube band : string)
    (split nsplits : Z) : option string :=
  match noise_path nside "noise" 0 telescope tube band split nsplits with
  | Some name => Some (path_join (path_join nb3_folder nb3_release) name)
  | None => None
  end.

(** Notebook 3: the full-mission map ([split=1, nsplits=1]), then
    [for split in range(1, 5): filenames += [...]] with [nsplits=4]. *)
Definition nb3_filenames (nside : Z) (telescope tube band : string)
    : option (list string) :=
  match nb3_filename nside telescope tube band 1 1 with
  | Some first =>
      match mapM (M := option) (fun split => nb3_filename nside telescope tube band split 4)
                 (Z.of_nat <$> seq 1 4) with
      | Some more => Some ([first] ++ more)%list
      | None => None
      end
  | None => None
  end.

(** A string of decimal digits, and the number it writes (leading zeros
    allowed): what reading a number field of a file name back gives. *)
Fixpoint digits_only (s : string) : bool :=
  match s with
  | EmptyString => true
  | String c rest =>
      match digit_of c with
      | Some _ => digits_only rest
      | None => false
      end
  end.

Definition read_number (s : string) : option Z :=
  match NilEmpty.uint_of_string s with
  | Some d => Some (Z.of_uint d)
  | None => None
  end.

End Filenames.

(** ** Notebook 1: the comparison of the two hitmaps of a tube *)

Module Nb1Check.
Import Np Arith.


End Nb1Check.

(** ** Changes of the inputs the notebooks' results are compared under *)

Module Transforms.
Import Np Arith.
Local Open Scope R_scope.


(** The Stokes parameters in a polarization basis turned by the angle
    [psi / 2]: [Q' = Q cos psi + U sin psi], [U' = - Q sin psi + U cos psi]. *)
Definition rotate_Q (psi : R) (q u : list R) : list R :=
  zip_with (fun x y => x * cos psi + y * sin psi) q u.
Definition rotate_U (psi : R) (q u : list R) : list R :=
  zip_with (fun x y => - x * sin psi + y * cos psi) q u.

(** A transform that is quadratic in the map, standing for [hp.anafast] in
    concrete runs: the squares of the pixels. *)
Definition squares_transform (m : list (list R)) (iter : Z) : list (list R) :=
  np_square2 m.

(** The pixels of the CAR map that are observed, with their areas: the
    area where the inverse variance is positive, zero elsewhere. *)
Definition observed_area (ivar1 pmap : list (list R)) : list (list R) :=
  zip_with (zip_with (fun v a => if Rpos v then a else 0)) ivar1 pmap.

End Transforms.

(** ** What a run reads *)

Module ReadProperties.
Import Notebook.

(** An event that opens or lists only paths that are allowed. *)
Definition reads_within (allowed : String.string -> Prop) (ev : event) : Prop :=
  match ev with
  | EvRead p | EvList p => allowed p
  | _ => True
  end.

(** A path under the release root. *)
Definition in_release (p : String.string) : Prop := under_release p = true.


(** Every path a program opens or lists is allowed, and every value it
    returns satisfies [Q]. *)
Definition run_spec {A : Type} (allowed : String.string -> Prop) (Q : A -> Prop)
    (m : NB A) : Prop :=
  forall w, exists evs,
    w_log (m w).2 = w_log w ++ evs
    /\ Forall (reads_within allowed) evs
    /\ forall a, (m w).1 = Ok a -> Q a.

(** The postcondition of a step whose value is not constrained. *)
Abbreviation any := (fun _ => True).


End ReadProperties.

(* ================================================================== *)
(** * Part II: theorems *)
(* ================================================================== *)

(** ** The release file names follow the on-disk convention *)

Module PyFormatFacts.
Import PyFormat.
Local Open Scope string_scope.

(** A boolean property checked on every number below [n] holds on the
    whole range. *)
Lemma range_check (f : Z -> bool) (n : Z) :
  forallb f (map Z.of_nat (seq 0 (Z.to_nat n))) = true ->
  forall z : Z, (0 <= z < n)%Z -> f z = true.
Proof.
  intros Hall z Hz.
  rewrite forallb_forall in Hall. apply Hall.
  apply in_map_iff. exists (Z.to_nat z). split; [lia|].
  apply in_seq. lia.
Qed.

Lemma parse_spec_04d : parse_spec "04d" = Some spec_04d.
Proof. reflexivity. Qed.

(** [format(num, "04d")] is the four-digit string on the whole range the
    convention covers. *)
Lemma format_int_04d (num : Z) :
  (0 <= num < 10000)%Z -> format_int spec_04d num = NNNN num.
Proof.
  intros H.
  apply String.eqb_eq.
  apply (range_check (fun z => String.eqb (format_int spec_04d z) (NNNN z)) 10000); [|lia].
  vm_compute. reflexivity.
Qed.

(** The four-digit string is the decimal numeral padded on the left. *)
Lemma NNNN_zfill (num : Z) :
  (0 <= num < 10000)%Z ->
  NNNN num = repeat_char "0" (4 - String.length (str_int num)) ++ str_int num.
Proof.
  intros H.
  apply String.eqb_eq.
  apply (range_check
           (fun z => String.eqb (NNNN z)
                       (repeat_char "0" (4 - String.length (str_int z)) ++ str_int z))
           10000); [|lia].
  vm_compute. reflexivity.
Qed.

Lemma parse_filename_template :
  parse filename_template =
  Some [Lit ""; Field "nside" ""; Lit "/"; Field "content" ""; Lit "/";
        Field "num" "04d"; Lit "/simonsobs_"; Field "content" "";
        Lit "_uKCMB_"; Field "telescope" ""; Lit ""; Field "band" "";
        Lit "_nside"; Field "nside" ""; Lit "_"; Field "num" "04d"; Lit ".fits"].
Proof. reflexivity. Qed.

Lemma parse_noise_filename_template :
  parse noise_filename_template =
  Some [Lit ""; Field "content" ""; Lit "/"; Field "num" "04d";
        Lit "/simonsobs_"; Field "content" ""; Lit "_uKCMB_"; Field "tube" "";
        Lit "_"; Field "band" ""; Lit "_nside"; Field "nside" ""; Lit "_";
        Field "num" "04d"; Lit "_"; Field "split" ""; Lit "_of_";
        Field "nsplits" ""; Lit ".fits"].
Proof. reflexivity. Qed.

Lemma format_value_04d (num : Z) :
  format_value "04d" (PyInt num) = Some (format_int spec_04d num).
Proof. reflexivity. Qed.

(** C1.  For every nside, content, telescope, tube, band, split and nsplits,
    and every [num] with [0 <= num < 10000], the signal-release path the
    notebooks format is
    [{nside}/{content}/NNNN/simonsobs_{content}_uKCMB_{telescope}{band}_nside{nside}_NNNN.fits]
    and the noise-release path is
    [{content}/NNNN/simonsobs_{content}_uKCMB_{tube}_{band}_nside{nside}_NNNN_{split}_of_{nsplits}.fits],
    where [NNNN] is [num] left-padded with zeros to exactly four digits. *)
Theorem release_paths_follow_convention
    (nside num split nsplits : Z) (content telescope tube band : string) :
  (0 <= num < 10000)%Z ->
  signal_path nside content num telescope band =
    Some (str_int nside ++ "/" ++ content ++ "/" ++ NNNN num ++ "/simonsobs_"
          ++ content ++ "_uKCMB_" ++ telescope ++ band ++ "_nside"
          ++ str_int nside ++ "_" ++ NNNN num ++ ".fits")
  /\ noise_path nside content num telescope tube band split nsplits =
    Some (content ++ "/" ++ NNNN num ++ "/simonsobs_" ++ content ++ "_uKCMB_"
          ++ tube ++ "_" ++ band ++ "_nside" ++ str_int nside ++ "_" ++ NNNN num
          ++ "_" ++ str_int split ++ "_of_" ++ str_int nsplits ++ ".fits")
  /\ NNNN num = repeat_char "0" (4 - String.length (str_int num)) ++ str_int num
  /\ String.length (NNNN num) = 4%nat.
Proof.
  intros Hnum.
  split; [|split; [|split]].
  - unfold signal_path, format. rewrite parse_filename_template.
    cbn [render lookup_kw String.eqb Ascii.eqb Bool.eqb option_map py_str].
    rewrite !format_value_04d, !(format_int_04d num Hnum).
    cbn [format_value py_str]. reflexivity.
  - unfold noise_path, format. rewrite parse_noise_filename_template.
    cbn [render lookup_kw String.eqb Ascii.eqb Bool.eqb option_map py_str].
    rewrite !format_value_04d, !(format_int_04d num Hnum).
    cbn [format_value py_str]. reflexivity.
  - apply NNNN_zfill, Hnum.
  - reflexivity.
Qed.

(** The paths of the notebooks' own calls: realization 7 of the CMB release
    at nside 512, and split 3 of 4 of the noise release. *)
Lemma release_paths_follow_convention_witness :
  signal_path 512 "cmb" 7 "sa" "UHF1" =
    Some "512/cmb/0007/simonsobs_cmb_uKCMB_saUHF1_nside512_0007.fits"
  /\ noise_path 512 "noise" 0 "SA" "ST2" "MFS1" 3 4 =
    Some "noise/0000/simonsobs_noise_uKCMB_ST2_MFS1_nside512_0000_3_of_4.fits".
Proof.
  pose proof (release_paths_follow_convention 512 7 3 4 "cmb" "sa" "ST2" "UHF1"
                ltac:(lia)) as [Hs _].
  pose proof (release_paths_follow_convention 512 0 3 4 "noise" "SA" "ST2" "MFS1"
                ltac:(lia)) as [_ [Hn _]].
  split; [exact Hs | exact Hn].
Defined.

(** Outside the range the field is wider than four characters, and a
    missing keyword is an error. *)

Example format_five_digits :
  format "{num:04d}" [("num", PyInt 12345)] = Some "12345".
Proof. reflexivity. Qed.

Example format_missing_keyword :
  format filename_template [("nside", PyInt 512)] = None.
Proof. reflexivity. Qed.

End PyFormatFacts.

(** ** Element-wise operations and the heap *)

Module NpFacts.
Import Np.

Lemma length_shape {A : Type} (a : list (list A)) : length (shape a) = length a.
Proof. unfold shape. by rewrite length_fmap. Qed.

Lemma shape_lookup {A B : Type} (a : list (list A)) (b : list (list B)) i r s :
  shape a = shape b -> a !! i = Some r -> b !! i = Some s -> length r = length s.
Proof.
  intros Hs Hr Hb.
  assert (E : shape a !! i = shape b !! i) by (by rewrite Hs).
  unfold shape in E. rewrite !list_lookup_fmap, Hr, Hb in E. by simplify_eq/=.
Qed.

Lemma shape_fmap2 {A B : Type} (g : A -> B) (a : list (list A)) :
  shape (fmap (M := list) (fmap (M := list) g) a) = shape a.
Proof.
  unfold shape. induction a as [|r a IH]; [done|].
  rewrite !fmap_cons, IH, length_fmap. done.
Qed.

Lemma shape_rows {A : Type} (a : list (list A)) (n : nat) :
  Forall (fun r => length r = n) a <-> shape a = replicate (length a) n.
Proof.
  unfold shape. induction a as [|r a IH]; [split; [done|constructor]|].
  rewrite fmap_cons, Forall_cons, IH. cbn [length replicate]. split.
  - intros [-> ->]. done.
  - intros [= -> E]. done.
Qed.

Section Zip.
Context {A B C : Type} (f : A -> B -> C).

Lemma zip_strict_Some (a : list A) (b : list B) :
  length a = length b -> zip_strict f a b = Some (zip_with f a b).
Proof. intros E. unfold zip_strict. rewrite decide_True; done. Qed.

Lemma zip_strict_inv (a : list A) (b : list B) (c : list C) :
  zip_strict f a b = Some c -> length a = length b /\ c = zip_with f a b.
Proof.
  unfold zip_strict. destruct (decide (length a = length b)); [|done].
  intros [= <-]. done.
Qed.

Lemma zip_strict_None (a : list A) (b : list B) :
  length a <> length b -> zip_strict f a b = None.
Proof. intros E. unfold zip_strict. rewrite decide_False; done. Qed.

Lemma zip_strict_length (a : list A) (b : list B) (c : list C) :
  zip_strict f a b = Some c -> length c = length a.
Proof.
  intros [E ->]%zip_strict_inv. rewrite length_zip_with. lia.
Qed.

Lemma zip_strict_lookup (a : list A) (b : list B) (c : list C) i x y :
  zip_strict f a b = Some c -> a !! i = Some x -> b !! i = Some y ->
  c !! i = Some (f x y).
Proof.
  intros [_ ->]%zip_strict_inv Ha Hb.
  rewrite lookup_zip_with, Ha, Hb. done.
Qed.

Lemma zip_rows_Some (a : list (list A)) (b : list B) :
  Forall (fun row => length row = length b) a ->
  zip_rows f a b = Some ((fun row => zip_with f row b) <$> a).
Proof.
  intros Hall. unfold zip_rows. apply mapM_Some.
  induction Hall as [|row a Hrow _ IH]; simpl; constructor; auto.
  by apply zip_strict_Some.
Qed.

Lemma zip_rows_inv (a : list (list A)) (b : list B) (c : list (list C)) :
  zip_rows f a b = Some c ->
  Forall (fun row => length row = length b) a /\
  c = (fun row => zip_with f row b) <$> a.
Proof.
  unfold zip_rows. rewrite mapM_Some.
  induction 1 as [|row row' a c Hrow _ [IH1 IH2]]; [done|].
  apply zip_strict_inv in Hrow as [E ->]. split; [by constructor|].
  simpl. by f_equal.
Qed.


Lemma zip_strict2_Some (a : list (list A)) (b : list (list B)) :
  shape a = shape b ->
  zip_strict2 f a b = Some (zip_with (zip_with f) a b).
Proof.
  intros Hs. unfold zip_strict2.
  rewrite decide_True by (by rewrite <- (length_shape a), Hs, length_shape).
  apply mapM_Some. revert b Hs.
  induction a as [|r a IH]; intros [|s b] Hs; simplify_eq/=; constructor; auto.
  by apply zip_strict_Some.
Qed.

Lemma zip_strict2_inv (a : list (list A)) (b : list (list B)) (c : list (list C)) :
  zip_strict2 f a b = Some c ->
  shape a = shape b /\ c = zip_with (zip_with f) a b.
Proof.
  unfold zip_strict2. destruct (decide (length a = length b)) as [E|]; [|done].
  rewrite mapM_Some. revert b c E.
  induction a as [|r a IH]; intros [|s b] c E Hc; simplify_eq/=.
  - inversion Hc. done.
  - inversion Hc as [|? r' ? c' Hr Hc']; subst.
    apply zip_strict_inv in Hr as [Er ->]. simpl in Er.
    destruct (IH b c' E Hc') as [IH1 ->]. split; [|done].
    unfold shape in *. simpl. by f_equal.
Qed.

Lemma shape_zip_with2 (a : list (list A)) (b : list (list B)) :
  shape a = shape b -> shape (zip_with (zip_with f) a b) = shape a.
Proof.
  revert b. induction a as [|r a IH]; intros [|s b] Hs; simplify_eq/=; [done|].
  unfold shape in *. simpl. rewrite IH by done.
  rewrite length_zip_with. f_equal. lia.
Qed.


End Zip.

Lemma Req0_true (x : R) : Req0 x = true <-> x = 0%R.
Proof. unfold Req0. destruct (Req_dec_T x 0); split; auto; discriminate. Qed.

Lemma Req0_false (x : R) : Req0 x = false <-> x <> 0%R.
Proof. unfold Req0. destruct (Req_dec_T x 0); split; auto; try discriminate; tauto. Qed.

Lemma Rpos_true (x : R) : Rpos x = true <-> (0 < x)%R.
Proof. unfold Rpos. destruct (Rlt_dec 0 x); split; auto; discriminate. Qed.

Lemma Rnonpos_true (x : R) : Rnonpos x = true <-> (x <= 0)%R.
Proof. unfold Rnonpos. destruct (Rle_dec x 0); split; auto; discriminate. Qed.

Section HeapFacts.
Context {T : Type}.

(** Copy, then assign through the copy: the new array is at a fresh
    location, every other location keeps its array. *)
Lemma copy_setitem (h : heap T) (l : loc) (a : list T) (idx : list bool) (v : T) :
  h !! l = Some a -> length idx = length a ->
  let l' := fresh (dom h) in
  let a' := zip_with (fun x (b : bool) => if b then v else x) a idx in
  np_copy h l = Some (l', <[l' := a]> h)
  /\ np_setitem_mask (<[l' := a]> h) l' idx v = Some (<[l' := a']> h)
  /\ l' <> l.
Proof.
  intros Hl Hlen l' a'. split; [|split].
  - unfold np_copy. rewrite Hl. done.
  - unfold np_setitem_mask, setitem_mask.
    rewrite lookup_insert_eq. simpl.
    rewrite zip_strict_Some by done. simpl.
    by rewrite insert_insert_eq.
  - intros E. apply (is_fresh (dom h)). fold l'. rewrite E.
    apply elem_of_dom. eauto.
Qed.

End HeapFacts.
End NpFacts.

(** ** Notebook 1: the display masks *)

Module Nb1Facts.
Import Np NpFacts Nb1.

Section Cells.
Context {T H : Type} `{Dtype T} `{Dtype H}.

(** The galactic-mask cell: the masked variant is a new array that holds
    [UNSEEN] where the mask is [False] and the amplitude elsewhere; the
    heap differs from the old one at the new location only. *)
Lemma galactic_mask_spec (h : heap T) (m_P : loc) (a : list T) (mask : list bool) :
  h !! m_P = Some a -> length mask = length a ->
  exists l' a',
    cell_galactic_mask h m_P mask = Some (l', <[l' := a']> h)
    /\ l' <> m_P /\ h !! l' = None /\ length a' = length a
    /\ forall (p : nat) (x : T) (b : bool), a !! p = Some x -> mask !! p = Some b ->
         a' !! p = Some (if b then x else UNSEEN).
Proof.
  intros Hl Hlen.
  assert (Hlen' : length (logical_not mask) = length a).
  { unfold logical_not. by rewrite length_fmap. }
  destruct (copy_setitem h m_P a (logical_not mask) UNSEEN Hl Hlen')
    as (Hc & Hs & Hne).
  eexists _, _. split; [|split; [exact Hne|split; [|split]]].
  - unfold cell_galactic_mask. rewrite Hc. simpl. rewrite Hs. done.
  - apply not_elem_of_dom, is_fresh.
  - rewrite length_zip_with, Hlen'. lia.
  - intros p x b Hx Hb. rewrite lookup_zip_with, Hx. simpl.
    unfold logical_not. rewrite list_lookup_fmap, Hb. simpl.
    by destruct b.
Qed.

(** The scanning-strategy cell, in the same terms, for [hitmaps[0] == 0]. *)
Lemma survey_cut_spec (h : heap T) (m_P : loc) (a : list T)
    (hitmaps : list (list H)) (hit0 : list H) :
  h !! m_P = Some a -> hitmaps !! 0%nat = Some hit0 -> length hit0 = length a ->
  exists l' a',
    cell_survey_cut h m_P hitmaps = Some (l', <[l' := a']> h)
    /\ l' <> m_P /\ h !! l' = None /\ length a' = length a
    /\ forall (p : nat) (x : T) (c : H), a !! p = Some x -> hit0 !! p = Some c ->
         a' !! p = Some (if eqz c then UNSEEN else x).
Proof.
  intros Hl Hh Hlen.
  assert (Hlen' : length (eq_zero hit0) = length a).
  { unfold eq_zero. by rewrite length_fmap. }
  destruct (copy_setitem h m_P a (eq_zero hit0) UNSEEN Hl Hlen')
    as (Hc & Hs & Hne).
  eexists _, _. split; [|split; [exact Hne|split; [|split]]].
  - unfold cell_survey_cut. rewrite Hc. simpl. rewrite Hh. simpl.
    rewrite Hs. done.
  - apply not_elem_of_dom, is_fresh.
  - rewrite length_zip_with, Hlen'. lia.
  - intros p x c Hx Hc'. rewrite lookup_zip_with, Hx. simpl.
    unfold eq_zero. rewrite list_lookup_fmap, Hc'. done.
Qed.

(** Without the copy the assignment goes through to the amplitude map. *)
Lemma survey_cut_aliased_spec (h : heap T) (m_P : loc) (a : list T)
    (hitmaps : list (list H)) (hit0 : list H) :
  h !! m_P = Some a -> hitmaps !! 0%nat = Some hit0 -> length hit0 = length a ->
  cell_survey_cut_aliased h m_P hitmaps =
    Some (m_P, <[m_P := zip_with (fun x (b : bool) => if b then UNSEEN else x)
                                 a (eq_zero hit0)]> h).
Proof.
  intros Hl Hh Hlen. unfold cell_survey_cut_aliased, np_setitem_mask, setitem_mask.
  rewrite Hh. simpl. rewrite Hl. simpl.
  rewrite zip_strict_Some by (unfold eq_zero; rewrite length_fmap; done).
  done.
Qed.

End Cells.

(** A mismatched mask is an [IndexError]: the cell has no result. *)
Example galactic_mask_wrong_length :
  cell_galactic_mask (T := R) {[ 1%positive := [1%R; 2%R] ]} 1%positive [true] = None.
Proof. reflexivity. Qed.

End Nb1Facts.

(** ** Masked arrays *)

Module MaFacts.
Import Np NpFacts Ma.

Section Masked.
Context {T : Type} `{Dtype T}.

Lemma hp_ma_wf (m : list (list T)) : ma_wf (hp_ma m).
Proof. unfold ma_wf, hp_ma. cbn [ma_data ma_mask]. by rewrite shape_fmap2. Qed.

Lemma hp_ma_mask (m : list (list T)) i r p x :
  m !! i = Some r -> r !! p = Some x ->
  exists k, ma_mask (hp_ma m) !! i = Some k /\ k !! p = Some (is_unseen x).
Proof.
  intros Hr Hx. exists (is_unseen <$> r). unfold hp_ma. cbn [ma_mask].
  rewrite list_lookup_fmap, Hr. split; [done|].
  by rewrite list_lookup_fmap, Hx.
Qed.

Lemma shape_set_rows {A : Type} (g : A -> bool -> A) (a : list (list A)) (idx : list bool) :
  Forall (fun r => length r = length idx) a ->
  shape ((fun row => zip_with g row idx) <$> a) = shape a.
Proof.
  unfold shape. induction 1 as [|r a E _ IH]; [done|].
  rewrite !fmap_cons, IH, length_zip_with. f_equal. lia.
Qed.

(** [a[:, idx] = v]: where the index is set the data is [v] and the
    element is unmasked; elsewhere data and mask stay. *)
Lemma ma_setitem_cols_spec (a : marray T) (idx : list bool) (v : T) :
  ma_wf a -> Forall (fun r => length r = length idx) (ma_data a) ->
  exists a',
    ma_setitem_cols a idx v = Some a' /\ ma_wf a'
    /\ shape (ma_data a') = shape (ma_data a)
    /\ forall (i : nat) r k (p : nat) (x : T) (m b : bool),
         ma_data a !! i = Some r -> ma_mask a !! i = Some k ->
         r !! p = Some x -> k !! p = Some m -> idx !! p = Some b ->
         exists r' k',
           ma_data a' !! i = Some r' /\ ma_mask a' !! i = Some k'
           /\ r' !! p = Some (if b then v else x)
           /\ k' !! p = Some (if b then false else m).
Proof.
  intros Hwf Hlen. unfold ma_wf in Hwf.
  assert (Hlenk : Forall (fun k => length k = length idx) (ma_mask a)).
  { apply shape_rows. rewrite <- Hwf. apply shape_rows in Hlen. rewrite Hlen.
    f_equal. by rewrite <- (length_shape (ma_data a)), Hwf, length_shape. }
  pose proof (zip_rows_Some (fun x (b : bool) => if b then v else x) _ _ Hlen) as Hd.
  pose proof (zip_rows_Some (fun x (b : bool) => if b then false else x) _ _ Hlenk) as Hk.
  eexists. split; [|split; [|split]].
  - unfold ma_setitem_cols, setitem_cols. rewrite Hd. simpl. rewrite Hk. done.
  - unfold ma_wf. cbn [ma_data ma_mask]. by rewrite !shape_set_rows.
  - cbn [ma_data]. by rewrite shape_set_rows.
  - intros i r k p x m b Hr Hk' Hx Hm Hb. cbn [ma_data ma_mask].
    exists (zip_with (fun x (b : bool) => if b then v else x) r idx),
           (zip_with (fun x (b : bool) => if b then false else x) k idx).
    rewrite !list_lookup_fmap, Hr, Hk'.
    split; [done|split; [done|]].
    rewrite !lookup_zip_with, Hx, Hm, Hb. done.
Qed.

(** [a += other]: an unmasked element receives [other]'s, a masked one
    receives zero; the mask is the old one. *)
Lemma ma_iadd_spec (a : marray T) (other : list (list T)) :
  ma_wf a -> shape (ma_data a) = shape other ->
  exists a',
    ma_iadd a other = Some a' /\ ma_mask a' = ma_mask a
    /\ shape (ma_data a') = shape (ma_data a)
    /\ forall (i : nat) r k o (p : nat) (x : T) (m : bool) (y : T),
         ma_data a !! i = Some r -> ma_mask a !! i = Some k -> other !! i = Some o ->
         r !! p = Some x -> k !! p = Some m -> o !! p = Some y ->
         exists r', ma_data a' !! i = Some r'
                    /\ r' !! p = Some (add x (if m then zero else y)).
Proof.
  intros Hwf Hshape. unfold ma_wf in Hwf.
  assert (Hko : shape (ma_mask a) = shape other) by congruence.
  pose proof (zip_strict2_Some (fun (k : bool) y => if k then zero else y) _ _ Hko) as Hw.
  pose proof (shape_zip_with2 (fun (k : bool) y => if k then zero else y) _ _ Hko) as Hod.
  set (od := zip_with (zip_with (fun (k : bool) y => if k then zero else y))
                      (ma_mask a) other) in *.
  assert (Hdo : shape (ma_data a) = shape od) by congruence.
  pose proof (zip_strict2_Some add _ _ Hdo) as Hsum.
  eexists. split; [|split; [|split]].
  - unfold ma_iadd. rewrite Hw. simpl. rewrite Hsum. done.
  - done.
  - cbn [ma_data]. by apply shape_zip_with2.
  - intros i r k o p x m y Hr Hk Ho Hx Hm Hy. cbn [ma_data].
    exists (zip_with add r (zip_with (fun (k : bool) y => if k then zero else y) k o)).
    subst od. rewrite !lookup_zip_with, Hr, Hk, Ho. simpl. split; [done|].
    rewrite ?lookup_zip_with, Hx. simpl. rewrite Hm. simpl. by rewrite Hy.
Qed.

(** [a + b] for a plain [a] and a masked [b]: where [b] is masked the data
    is [a]'s and the element is masked, elsewhere it is the sum. *)
Lemma ma_radd_spec (a : list (list T)) (b : marray T) :
  ma_wf b -> shape a = shape (ma_data b) ->
  exists c,
    ma_radd a b = Some c /\ ma_mask c = ma_mask b
    /\ forall (i : nat) r s k (p : nat) (x y : T) (m : bool),
         a !! i = Some r -> ma_data b !! i = Some s -> ma_mask b !! i = Some k ->
         r !! p = Some x -> s !! p = Some y -> k !! p = Some m ->
         exists t, ma_data c !! i = Some t
                   /\ t !! p = Some (if m then x else add x y).
Proof.
  intros Hwf Hshape. unfold ma_wf in Hwf.
  pose proof (zip_strict2_Some add _ _ Hshape) as Hsum.
  pose proof (shape_zip_with2 add _ _ Hshape) as Hr0.
  set (r0 := zip_with (zip_with add) a (ma_data b)) in *.
  assert (Har : shape a = shape r0) by congruence.
  pose proof (zip_strict2_Some pair _ _ Har) as Hpair.
  pose proof (shape_zip_with2 pair _ _ Har) as Har0.
  set (ar := zip_with (zip_with pair) a r0) in *.
  assert (Hkar : shape (ma_mask b) = shape ar) by congruence.
  pose proof (zip_strict2_Some
                (fun (k : bool) (xy : T * T) => if k then xy.1 else xy.2) _ _ Hkar) as Hcp.
  eexists. split; [|split].
  - unfold ma_radd. rewrite Hsum. simpl. rewrite Hpair. simpl. rewrite Hcp. done.
  - done.
  - intros i r s k p x y m Hr Hs Hk Hx Hy Hm. cbn [ma_data].
    eexists. subst ar r0.
    rewrite !lookup_zip_with, Hk. simpl. rewrite Hr. simpl. rewrite Hs. simpl.
    split; [done|].
    rewrite !lookup_zip_with, Hm. simpl. rewrite Hx. simpl. rewrite Hy. simpl.
    by destruct m.
Qed.

End Masked.
End MaFacts.

(** ** Notebook 2: the scanning cut and the co-addition *)

Module Nb2Facts.
Import Np NpFacts Ma MaFacts Nb2.

Section Cells.
Context {T H : Type} `{Dtype T} `{Dtype H}.

(** A loop over [maps] that succeeds on every element succeeds, and the
    result holds each element's outcome at its place. *)
Lemma mapM_pointwise {A B : Type} (f : A -> option B) (l : list A) :
  (forall j x, l !! j = Some x -> is_Some (f x)) ->
  exists k, mapM f l = Some k /\ length k = length l
            /\ forall j x, l !! j = Some x -> exists y, k !! j = Some y /\ f x = Some y.
Proof.
  intros Hall.
  assert (Hs : is_Some (mapM f l)).
  { apply mapM_is_Some, Forall_lookup. intros j x Hx. by eapply Hall. }
  destruct Hs as [k Hk]. exists k. split; [done|].
  apply mapM_Some in Hk. split; [symmetry; by eapply Forall2_length|].
  intros j x Hx. destruct (Forall2_lookup_l _ _ _ _ _ Hk Hx) as (y & Hy & Hf).
  eauto.
Qed.

(** The scanning cut on the loaded maps: every element with
    [hitmaps[0] == 0] holds [UNSEEN] and is unmasked, every other element
    keeps its value and the mask bit [hp.ma] gave it. *)
Lemma scan_cut_spec (raw : list (list (list T))) (hitmaps : list (list H))
    (hit0 : list H) :
  hitmaps !! 0%nat = Some hit0 ->
  Forall (Forall (fun row => length row = length hit0)) raw ->
  exists maps',
    scan_cut (load raw) hitmaps = Some maps'
    /\ forall (j : nat) m, raw !! j = Some m ->
         exists each', maps' !! j = Some each' /\ ma_wf each'
           /\ shape (ma_data each') = shape m
           /\ forall (i : nat) r (p : nat) (x : T) (c : H),
                m !! i = Some r -> r !! p = Some x -> hit0 !! p = Some c ->
                exists r' k',
                  ma_data each' !! i = Some r' /\ ma_mask each' !! i = Some k'
                  /\ r' !! p = Some (if eqz c then UNSEEN else x)
                  /\ k' !! p = Some (if eqz c then false else is_unseen x).
Proof.
  intros Hh Hrows. unfold scan_cut. rewrite Hh. simpl.
  assert (Hidx : length (eq_zero hit0) = length hit0).
  { unfold eq_zero. by rewrite length_fmap. }
  assert (Hspec : forall j m, raw !! j = Some m ->
            Forall (fun r => length r = length (eq_zero hit0)) (ma_data (hp_ma m))).
  { intros j m Hm. rewrite Forall_lookup in Hrows. specialize (Hrows _ _ Hm).
    cbn [hp_ma ma_data]. eapply Forall_impl; [exact Hrows|].
    simpl. intros r ->. done. }
  destruct (mapM_pointwise
              (fun each => ma_setitem_cols each (eq_zero hit0) UNSEEN) (load raw))
    as (maps' & Hmaps & _ & Hpt).
  { intros j each Hj. unfold load in Hj. rewrite list_lookup_fmap in Hj.
    destruct (raw !! j) as [m|] eqn:Hm; simplify_eq/=.
    destruct (ma_setitem_cols_spec (hp_ma m) (eq_zero hit0) UNSEEN
                (hp_ma_wf m) (Hspec _ _ Hm)) as (a' & Ha' & _). eauto. }
  exists maps'. split; [done|].
  intros j m Hm.
  destruct (Hpt j (hp_ma m)) as (each' & Hj & Hset).
  { unfold load. by rewrite list_lookup_fmap, Hm. }
  destruct (ma_setitem_cols_spec (hp_ma m) (eq_zero hit0) UNSEEN
              (hp_ma_wf m) (Hspec _ _ Hm)) as (a' & Ha' & Hwf & Hsh & Hpix).
  assert (a' = each') by congruence. subst a'.
  exists each'. split; [done|split; [done|split; [done|]]].
  intros i r p x c Hr Hx Hc.
  destruct (hp_ma_mask m i r p x Hr Hx) as (k & Hk & Hkp).
  destruct (Hpix i r k p x (is_unseen x) (eqz c)) as (r' & k' & ? & ? & ? & ?); try done.
  { unfold eq_zero. by rewrite list_lookup_fmap, Hc. }
  eauto 10.
Qed.

(** The whole pipeline, element by element: a cut element ends as
    [UNSEEN + dust], unmasked; an element that held the sentinel in the
    file ends unchanged (plus zero) and masked; any other element ends as
    the sum. *)
Lemma pipeline_pixel (raw : list (list (list T))) (hitmaps : list (list H))
    (hit0 : list H) (dust : list (list T)) :
  hitmaps !! 0%nat = Some hit0 ->
  Forall (Forall (fun row => length row = length hit0)) raw ->
  Forall (fun m => shape m = shape dust) raw ->
  exists out,
    pipeline raw hitmaps dust = Some out
    /\ forall (j : nat) m (i : nat) r d (p : nat) (x y : T) (c : H),
         raw !! j = Some m -> m !! i = Some r -> dust !! i = Some d ->
         r !! p = Some x -> hit0 !! p = Some c -> d !! p = Some y ->
         exists each r' k',
           out !! j = Some each
           /\ ma_data each !! i = Some r' /\ ma_mask each !! i = Some k'
           /\ r' !! p = Some (if eqz c then add UNSEEN y
                              else add x (if is_unseen x then zero else y))
           /\ k' !! p = Some (if eqz c then false else is_unseen x).
Proof.
  intros Hh Hrows Hdust.
  destruct (scan_cut_spec raw hitmaps hit0 Hh Hrows) as (maps' & Hcut & Hmaps).
  unfold pipeline. rewrite Hcut. simpl.
  assert (Hlen : length maps' = length raw).
  { unfold scan_cut in Hcut. rewrite Hh in Hcut. simpl in Hcut.
    apply mapM_Some, Forall2_length in Hcut. unfold load in Hcut.
    rewrite length_fmap in Hcut. done. }
  assert (Hwf : forall j each, maps' !! j = Some each ->
            ma_wf each /\ shape (ma_data each) = shape dust).
  { intros j each Hj.
    destruct (raw !! j) as [m|] eqn:Hm.
    - destruct (Hmaps j m Hm) as (each' & Hj' & Hwf & Hsh & _).
      assert (each' = each) by congruence. subst each'.
      rewrite Forall_lookup in Hdust. specialize (Hdust _ _ Hm). simpl in Hdust.
      split; [done|congruence].
    - apply lookup_ge_None in Hm. apply lookup_lt_Some in Hj. lia. }
  destruct (mapM_pointwise (fun each => ma_iadd each dust) maps')
    as (out & Hout & _ & Hpt).
  { intros j each Hj. destruct (Hwf j each Hj) as [Hw Hs].
    destruct (ma_iadd_spec each dust Hw Hs) as (a' & Ha' & _). eauto. }
  exists out. split; [exact Hout|].
  intros j m i r d p x y c Hm Hr Hd Hx Hc Hy.
  destruct (Hmaps j m Hm) as (each' & Hj' & _ & _ & Hpix).
  destruct (Hpix i r p x c Hr Hx Hc) as (r1 & k1 & Hr1 & Hk1 & Hr1p & Hk1p).
  destruct (Hpt j each' Hj') as (each & Hj & Hadd).
  destruct (Hwf j each' Hj') as [Hw Hs].
  destruct (ma_iadd_spec each' dust Hw Hs) as (a' & Ha' & Hmask & _ & Hsum).
  assert (a' = each) by congruence. subst a'.
  destruct (Hsum i r1 k1 d p _ _ y Hr1 Hk1 Hd Hr1p Hk1p Hy) as (r' & Hr' & Hr'p).
  exists each, r', k1. split; [done|split; [done|split; [by rewrite Hmask|]]].
  split; [|done].
  rewrite Hr'p. by destruct (eqz c).
Qed.

End Cells.
End Nb2Facts.

(** ** Masking and co-addition: the claims *)

Module MaskClaims.
Import Np NpFacts Ma MaFacts Nb1 Nb1Facts Nb2 Nb2Facts Inputs.
Local Open Scope R_scope.

(** C4.  Applying the scanning-strategy cut replaces the value of every
    pixel whose hit count is zero with [UNSEEN] and leaves every pixel with
    a positive hit count unchanged (notebook 1 on the amplitude map,
    notebook 2 on every component of every CMB map); applying the boolean
    galactic mask replaces exactly the pixels where the mask is [False]
    with [UNSEEN] and leaves the pixels where it is [True] unchanged. *)
Theorem mask_application_flags_unobserved_pixels {T : Type} `{Dtype T} :
  (forall (h : heap T) (m_P : loc) (a : list T)
          (hitmaps : list (list R)) (hit0 : list R),
      h !! m_P = Some a -> hitmaps !! 0%nat = Some hit0 ->
      length hit0 = length a ->
      exists l' h' a',
        cell_survey_cut h m_P hitmaps = Some (l', h')
        /\ h' !! l' = Some a' /\ length a' = length a
        /\ forall (p : nat) (x : T) (c : R),
             a !! p = Some x -> hit0 !! p = Some c ->
             (c = 0 -> a' !! p = Some UNSEEN) /\ (0 < c -> a' !! p = Some x))
  /\ (forall (h : heap T) (m_P : loc) (a : list T) (mask : list bool),
      h !! m_P = Some a -> length mask = length a ->
      exists l' h' a',
        cell_galactic_mask h m_P mask = Some (l', h')
        /\ h' !! l' = Some a' /\ length a' = length a
        /\ forall (p : nat) (x : T),
             a !! p = Some x ->
             (mask !! p = Some false -> a' !! p = Some UNSEEN)
             /\ (mask !! p = Some true -> a' !! p = Some x))
  /\ (forall (raw : list (list (list T))) (hitmaps : list (list R)) (hit0 : list R),
      hitmaps !! 0%nat = Some hit0 ->
      Forall (Forall (fun row => length row = length hit0)) raw ->
      exists maps',
        scan_cut (load raw) hitmaps = Some maps'
        /\ forall (j : nat) m (i : nat) r (p : nat) (x : T) (c : R),
             raw !! j = Some m -> m !! i = Some r ->
             r !! p = Some x -> hit0 !! p = Some c ->
             exists each' r',
               maps' !! j = Some each' /\ ma_data each' !! i = Some r'
               /\ (c = 0 -> r' !! p = Some UNSEEN)
               /\ (0 < c -> r' !! p = Some x)).
Proof.
  split; [|split].
  - intros h m_P a hitmaps hit0 Hl Hh Hlen.
    destruct (survey_cut_spec h m_P a hitmaps hit0 Hl Hh Hlen)
      as (l' & a' & Hcell & _ & _ & Hlen' & Hpix).
    exists l', (<[l' := a']> h), a'.
    split; [done|split; [by rewrite lookup_insert_eq|split; [done|]]].
    intros p x c Hx Hc. rewrite (Hpix p x c Hx Hc). simpl. split.
    + intros ->. by rewrite (proj2 (Req0_true 0)).
    + intros Hpos. rewrite (proj2 (Req0_false c)); [done|lra].
  - intros h m_P a mask Hl Hlen.
    destruct (galactic_mask_spec h m_P a mask Hl Hlen)
      as (l' & a' & Hcell & _ & _ & Hlen' & Hpix).
    exists l', (<[l' := a']> h), a'.
    split; [done|split; [by rewrite lookup_insert_eq|split; [done|]]].
    intros p x Hx. split; intros Hb; by rewrite (Hpix p x _ Hx Hb).
  - intros raw hitmaps hit0 Hh Hrows.
    destruct (scan_cut_spec raw hitmaps hit0 Hh Hrows) as (maps' & Hcut & Hmaps).
    exists maps'. split; [done|].
    intros j m i r p x c Hm Hr Hx Hc.
    destruct (Hmaps j m Hm) as (each' & Hj & _ & _ & Hpix).
    destruct (Hpix i r p x c Hr Hx Hc) as (r' & k' & Hr' & _ & Hp & _).
    exists each', r'. split; [done|split; [done|]].
    rewrite Hp. simpl. split.
    + intros ->. by rewrite (proj2 (Req0_true 0)).
    + intros Hpos. rewrite (proj2 (Req0_false c)); [done|lra].
Qed.

(** The cut on a four-pixel amplitude map whose second pixel has no hit. *)
Lemma mask_application_flags_unobserved_pixels_witness :
  exists l' h' a',
    cell_survey_cut (T := R) {[ 1%positive := [5; 6; 7; 8] ]} 1%positive
                    [[3; 0; 1; 2]] = Some (l', h')
    /\ h' !! l' = Some a'
    /\ a' !! 1%nat = Some UNSEEN /\ a' !! 2%nat = Some 7.
Proof.
  destruct (mask_application_flags_unobserved_pixels (T := R)) as [Hcut _].
  destruct (Hcut {[ 1%positive := [5; 6; 7; 8] ]} 1%positive [5; 6; 7; 8]
                 [[3; 0; 1; 2]] [3; 0; 1; 2]
                 (lookup_singleton_eq _ _) eq_refl eq_refl)
    as (l' & h' & a' & Hcell & Hl' & _ & Hpix).
  exists l', h', a'. split; [exact Hcell|split; [exact Hl'|split]].
  - apply (Hpix 1%nat 6 0 eq_refl eq_refl). reflexivity.
  - apply (Hpix 2%nat 7 1 eq_refl eq_refl). lra.
Defined.

(** C9.  Masking for display never mutates the source map: the masked
    variants are built from a copy, so after either masking cell the
    amplitude map [m_P] holds every original value (and so does every other
    array that existed before the cell). *)
Theorem display_masking_keeps_source_map {T H : Type} `{Dtype T} `{Dtype H} :
  (forall (h : heap T) (m_P : loc) (a : list T) (mask : list bool),
      h !! m_P = Some a -> length mask = length a ->
      exists l' h',
        cell_galactic_mask h m_P mask = Some (l', h')
        /\ l' <> m_P /\ h' !! m_P = Some a
        /\ forall l, l <> l' -> h' !! l = h !! l)
  /\ (forall (h : heap T) (m_P : loc) (a : list T)
             (hitmaps : list (list H)) (hit0 : list H),
      h !! m_P = Some a -> hitmaps !! 0%nat = Some hit0 ->
      length hit0 = length a ->
      exists l' h',
        cell_survey_cut h m_P hitmaps = Some (l', h')
        /\ l' <> m_P /\ h' !! m_P = Some a
        /\ forall l, l <> l' -> h' !! l = h !! l).
Proof.
  split.
  - intros h m_P a mask Hl Hlen.
    destruct (galactic_mask_spec h m_P a mask Hl Hlen)
      as (l' & a' & Hcell & Hne & _ & _ & _).
    exists l', (<[l' := a']> h). split; [done|split; [done|split]].
    + by rewrite lookup_insert_ne.
    + intros l Hl'. by rewrite lookup_insert_ne.
  - intros h m_P a hitmaps hit0 Hl Hh Hlen.
    destruct (survey_cut_spec h m_P a hitmaps hit0 Hl Hh Hlen)
      as (l' & a' & Hcell & Hne & _ & _ & _).
    exists l', (<[l' := a']> h). split; [done|split; [done|split]].
    + by rewrite lookup_insert_ne.
    + intros l Hl'. by rewrite lookup_insert_ne.
Qed.

(** After the galactic-mask cell on a two-pixel map the source is intact. *)
Lemma display_masking_keeps_source_map_witness :
  exists l' h',
    cell_galactic_mask (T := R) {[ 1%positive := [5; 6] ]} 1%positive [true; false]
      = Some (l', h')
    /\ h' !! 1%positive = Some [5; 6].
Proof.
  destruct (display_masking_keeps_source_map (T := R) (H := R)) as [Hmask _].
  destruct (Hmask {[ 1%positive := [5; 6] ]} 1%positive [5; 6] [true; false]
                  (lookup_singleton_eq _ _) eq_refl)
    as (l' & h' & Hcell & _ & Hsrc & _).
  exists l', h'. split; [exact Hcell | exact Hsrc].
Defined.

(** The copy is what protects the source: the same assignment through an
    alias overwrites the amplitude map. *)
Example aliased_cut_overwrites_source :
  exists h',
    cell_survey_cut_aliased (T := float) (H := float)
      {[ 1%positive := [5; 6]%float ]} 1%positive [[0; 1]%float]
      = Some (1%positive, h')
    /\ h' !! 1%positive = Some [UNSEEN_f64; 6%float].
Proof. eexists. split; reflexivity. Qed.

(** *** Co-addition (C5) *)

(** In exact arithmetic and in binary64 alike, an observed pixel that is
    not the sentinel ends as the sum of signal and foreground. *)
Lemma coadded_observed_pixel {T H : Type} `{Dtype T} `{Dtype H}
    (raw : list (list (list T))) (hitmaps : list (list H)) (hit0 : list H)
    (dust : list (list T)) :
  hitmaps !! 0%nat = Some hit0 ->
  Forall (Forall (fun row => length row = length hit0)) raw ->
  Forall (fun m => shape m = shape dust) raw ->
  exists out,
    pipeline raw hitmaps dust = Some out
    /\ forall (j : nat) m (i : nat) r d (p : nat) (x y : T) (c : H),
         raw !! j = Some m -> m !! i = Some r -> dust !! i = Some d ->
         r !! p = Some x -> hit0 !! p = Some c -> d !! p = Some y ->
         eqz c = false -> is_unseen x = false ->
         exists each r', out !! j = Some each /\ ma_data each !! i = Some r'
                         /\ r' !! p = Some (add x y).
Proof.
  intros Hh Hrows Hdust.
  destruct (pipeline_pixel raw hitmaps hit0 dust Hh Hrows Hdust) as (out & Hout & Hpix).
  exists out. split; [done|].
  intros j m i r d p x y c Hm Hr Hd Hx Hc Hy Hz Hu.
  destruct (Hpix j m i r d p x y c Hm Hr Hd Hx Hc Hy)
    as (each & r' & k' & ? & ? & ? & Hv & ?).
  rewrite Hz, Hu in Hv. eauto.
Qed.

(** A pixel the cut set to [UNSEEN] is not masked, and the co-addition adds
    the foreground value to the sentinel. *)
Lemma coadded_cut_pixel {T H : Type} `{Dtype T} `{Dtype H}
    (raw : list (list (list T))) (hitmaps : list (list H)) (hit0 : list H)
    (dust : list (list T)) :
  hitmaps !! 0%nat = Some hit0 ->
  Forall (Forall (fun row => length row = length hit0)) raw ->
  Forall (fun m => shape m = shape dust) raw ->
  exists out,
    pipeline raw hitmaps dust = Some out
    /\ forall (j : nat) m (i : nat) r d (p : nat) (x y : T) (c : H),
         raw !! j = Some m -> m !! i = Some r -> dust !! i = Some d ->
         r !! p = Some x -> hit0 !! p = Some c -> d !! p = Some y ->
         eqz c = true ->
         exists each r' k', out !! j = Some each
                            /\ ma_data each !! i = Some r' /\ ma_mask each !! i = Some k'
                            /\ r' !! p = Some (add UNSEEN y) /\ k' !! p = Some false.
Proof.
  intros Hh Hrows Hdust.
  destruct (pipeline_pixel raw hitmaps hit0 dust Hh Hrows Hdust) as (out & Hout & Hpix).
  exists out. split; [done|].
  intros j m i r d p x y c Hm Hr Hd Hx Hc Hy Hz.
  destruct (Hpix j m i r d p x y c Hm Hr Hd Hx Hc Hy)
    as (each & r' & k' & ? & ? & ? & Hv & Hk).
  rewrite Hz in Hv, Hk. eauto 10.
Qed.

(** C5, at that input.  After the cut and [each += dust], pixel 0 of the Q
    map holds twice the sentinel: it is not the sentinel any more, healpy's
    test no longer recognises it, and the masked array does not mask it.
    The observed pixel 1 holds the sum 1 + 2. *)
Theorem coaddition_overwrites_cut_pixel :
  exists each q k v,
    pipeline cmb_nside1 hitmaps_nside1 dust_nside1 = Some [each]
    /\ ma_data each !! 1%nat = Some q /\ ma_mask each !! 1%nat = Some k
    /\ q !! 0%nat = Some v
    /\ v = (-0x1.4ab0c40c8402cp+101)%float
    /\ PrimFloat.eqb v UNSEEN_f64 = false
    /\ is_unseen v = false
    /\ k !! 0%nat = Some false
    /\ q !! 1%nat = Some 3%float.
Proof.
  eexists _, _, _, _.
  split; [vm_compute; reflexivity|].
  repeat split; vm_compute; reflexivity.
Qed.

(** With a foreground of ordinary size the sentinel survives in binary64,
    by rounding and not by the mask; in exact arithmetic it never does. *)
Example cut_pixel_absorbs_small_dust :
  PrimFloat.eqb (add (T := float) UNSEEN 2%float) UNSEEN = true.
Proof. vm_compute. reflexivity. Qed.

Example cut_pixel_exact_arithmetic (y : R) :
  add (T := R) UNSEEN y = UNSEEN <-> y = 0.
Proof. simpl. split; intros; lra. Qed.

End MaskClaims.

(** ** Real-valued arithmetic: sums, counts, division *)

Module ArithFacts.
Import Np NpFacts Arith.
Local Open Scope R_scope.

Lemma rdiv_Some (x y : R) : y <> 0 -> rdiv x y = Some (x / y).
Proof. intros Hy. unfold rdiv. destruct (Req_dec_T y 0); [done|done]. Qed.


Lemma rdiv_inv (x y z : R) : rdiv x y = Some z -> y <> 0 /\ z = x / y.
Proof. unfold rdiv. destruct (Req_dec_T y 0); [done|]. intros [= <-]. done. Qed.

Lemma div_scalar_Some (a : list R) (d : R) :
  d <> 0 -> div_scalar a d = Some ((fun c => c / d) <$> a).
Proof.
  intros Hd. unfold div_scalar. apply mapM_Some.
  induction a as [|c a IH]; [constructor|].
  rewrite fmap_cons. constructor; [by apply rdiv_Some|done].
Qed.






(** Sums of non-negative numbers. *)
Lemma np_sum_nonneg (a : list R) : Forall (fun x => 0 <= x) a -> 0 <= np_sum a.
Proof.
  induction 1 as [|x a Hx _ IH]; simpl; [lra|]. lra.
Qed.









End ArithFacts.

(** ** Notebook 1: the polarization amplitude (C6) *)

Module AmplitudeClaims.
Import Np NpFacts Arith ArithFacts Nb1Amplitude.
Local Open Scope R_scope.



End AmplitudeClaims.

(** ** Notebook 3: sky fraction and corrected spectra *)

Module Nb3Facts.
Import Np NpFacts Arith ArithFacts.
Local Open Scope R_scope.




Section Spectra.
Variable anafast : list (list R) -> Z -> list (list R).



End Spectra.



End Nb3Facts.

(** ** Notebook 6: mask, [w2] and the corrected spectrum *)

Module Nb6Facts.
Import Np NpFacts Arith ArithFacts.
Local Open Scope R_scope.

Lemma car_mask_spec (ivar1 : list (list R)) :
  Nb6.car_mask ivar1 = Some (fmap (M := list) Nb6.indicator <$> ivar1).
Proof.
  unfold Nb6.car_mask, le_zero2.
  rewrite zip_strict2_Some by (by rewrite !shape_fmap2).
  f_equal. induction ivar1 as [|row ivar1 IH]; [done|].
  rewrite !fmap_cons. cbn [zip_with]. rewrite IH. f_equal.
  clear IH. induction row as [|v row IH]; [done|].
  rewrite !fmap_cons. cbn [zip_with]. rewrite IH. f_equal.
  unfold Nb6.indicator, Rnonpos, Rpos.
  destruct (Rle_dec v 0), (Rlt_dec 0 v); lra.
Qed.


Lemma w2_inv (ivar1 pmap : list (list R)) (w : R) :
  Nb6.w2 ivar1 pmap = Some w ->
  exists mask prod,
    Nb6.car_mask ivar1 = Some mask
    /\ zip_strict2 Rmult (np_square2 mask) pmap = Some prod
    /\ w = np_sum2 prod / (4 * PI).
Proof.
  unfold Nb6.w2. rewrite car_mask_spec. simpl.
  destruct (zip_strict2 Rmult _ pmap) as [prod|] eqn:Hp; [|done]. simpl.
  rewrite rdiv_Some by apply PI_neq0. simpl.
  rewrite rdiv_Some by lra. intros [= <-].
  exists (fmap (M := list) Nb6.indicator <$> ivar1), prod.
  split; [done|split; [done|]].
  field. apply PI_neq0.
Qed.

Lemma w2_Some (ivar1 pmap : list (list R)) :
  shape pmap = shape ivar1 -> is_Some (Nb6.w2 ivar1 pmap).
Proof.
  intros Hs. unfold Nb6.w2. rewrite car_mask_spec. simpl.
  rewrite zip_strict2_Some.
  - simpl. rewrite rdiv_Some by apply PI_neq0. simpl. rewrite rdiv_Some by lra. eauto.
  - unfold np_square2, np_square. by rewrite !shape_fmap2.
Qed.

(** Element by element, two arrays of one shape divide when no divisor is
    zero. *)
Lemma mapM_rdiv_row (r s : list R) :
  length r = length s -> Forall (fun x => x <> 0) s ->
  mapM (M := option) (fun c : option R => c) (zip_with rdiv r s)
    = Some (zip_with Rdiv r s).
Proof.
  intros Hlen Hs. apply mapM_Some. revert s Hlen Hs.
  induction r as [|x r IH]; intros [|y s] Hlen Hs; try discriminate; simpl;
    constructor.
  - apply Forall_cons in Hs as [Hy _]. by rewrite rdiv_Some.
  - apply Forall_cons in Hs as [_ Hs]. apply IH; [|done]. simpl in Hlen. lia.
Qed.

Lemma div_arrays2_Some (a b : list (list R)) :
  shape a = shape b -> Forall (Forall (fun x => x <> 0)) b ->
  div_arrays2 a b = Some (zip_with (zip_with Rdiv) a b).
Proof.
  intros Hs Hb. unfold div_arrays2. rewrite zip_strict2_Some by done.
  apply mapM_Some. revert b Hs Hb. unfold shape.
  induction a as [|r a IH]; intros [|s b] Hs Hb;
    rewrite ?fmap_cons, ?fmap_nil in Hs; try discriminate; simpl; constructor.
  - injection Hs as Hlen _. apply Forall_cons in Hb as [Hrow _].
    by apply mapM_rdiv_row.
  - injection Hs as _ Hs. apply Forall_cons in Hb as [_ Hb]. by apply IH.
Qed.

Section Spectra.
Context {alm : Type}.
Variable map2alm : list (list R) -> Z -> alm.
Variable alm2cl : alm -> list R.

(** The CAR spectrum has a value when the three maps have one shape, no
    pixel has area zero and [w2] is not zero. *)
Lemma cls_Some (ivar1 pmap tmap1 : list (list R)) (w : R) :
  shape pmap = shape ivar1 -> shape tmap1 = shape ivar1 ->
  Forall (Forall (fun x => x <> 0)) pmap ->
  Nb6.w2 ivar1 pmap = Some w -> w <> 0 ->
  is_Some (Nb6.cls map2alm alm2cl ivar1 pmap tmap1).
Proof.
  intros Hp Ht Hnz Hw Hw0. unfold Nb6.cls, Nb6.standardized.
  rewrite div_arrays2_Some by done. simpl.
  rewrite zip_strict2_Some.
  - simpl. rewrite Hw. simpl. rewrite div_scalar_Some by done. eauto.
  - unfold np_sqrt2, np_sqrt. rewrite shape_fmap2.
    rewrite shape_zip_with2 by done. done.
Qed.

End Spectra.
End Nb6Facts.

(** ** The sky-fraction correction: the claims *)

Module SpectraClaims.
Import Np NpFacts Arith ArithFacts Nb3Facts Nb6Facts.
Local Open Scope R_scope.





End SpectraClaims.

(** ** Runs of cells: what the log and the file system can tell *)

Module NotebookFacts.
Import Np Ma Arith PyFormat Notebook RunProperties.
Local Open Scope nb_scope.






















Section WithLibs.
Context `{Libs}.



End WithLibs.

(** A handler is what breaks the agreement of result and log: a raised
    exception is followed by a value. *)
Example try_except_swallows :
  let m := try_except (raise "hp.read_map" (Exn "FileNotFoundError" "x.fits"))
                      (fun _ => ret tt) in
  let w := World ∅ [] in
  (m w).1 = Ok tt /\ w_log (m w).2 = [EvRaise "hp.read_map" (Exn "FileNotFoundError" "x.fits")]
  /\ ~ well_behaved m.
Proof.
  simpl. split; [done|split; [done|]].
  intros Hwb. destruct (Hwb (World ∅ [])) as (evs & Hlog & Hout & _).
  simpl in *. subst evs. inversion Hout as [|? ? Hq _]. apply Hq. exact I.
Qed.

End NotebookFacts.

(** ** Successful runs, step by step *)

Module RunFacts.
Import Np Ma Arith PyFormat Notebook RunProperties NotebookFacts.
Local Open Scope nb_scope.
















Section WithLibs.
Context `{Libs}.



End WithLibs.
End RunFacts.

(** ** The notebooks are well behaved *)

Module ProgramFacts.
Import Np Ma Arith PyFormat Notebook RunProperties NotebookFacts Programs.
Local Open Scope nb_scope.



Section WithLibs.
Context `{Libs}.





End WithLibs.
End ProgramFacts.

(** ** The notebooks as a whole: the claims *)

Module NotebookClaims.
Import Np NpFacts Ma Arith ArithFacts PyFormat Notebook RunProperties NotebookFacts RunFacts.
Import Programs ProgramFacts Inputs.
Local Open Scope nb_scope.
Local Open Scope R_scope.


(** *** C3: who computes the correction *)



Section WithLibs.
Context `{Libs}.



End WithLibs.





(** *** C7: the release tree is read and never written *)



(** *** C8: exceptions reach the top level *)



(** Concrete runs.  With failing libraries the first notebook ends at its
    first call, with the library's exception. *)
Example nb1_first_call_fails :
  nb1 (H := failing_libs) empty_world =
    (Raise (Exn "RuntimeError" "library failure"),
     World ∅ [EvCall "mapsims.parse_channels";
              EvRaise "mapsims.parse_channels" (Exn "RuntimeError" "library failure")]).
Proof. reflexivity. Qed.

(** With the demonstration libraries and no file on disk it lists the
    release directory, formats the path of the release file, opens it for
    reading, and ends with [FileNotFoundError] for that path. *)
Example nb1_missing_release_file :
  exists pre,
    nb1 (H := demo_libs) empty_world =
      (Raise (Exn "FileNotFoundError"
                ("/project/projectdirs/sobs/v4_sims/mbs/201906_highres_foregrounds_extragalactic_tophat"
                 ++ "/512/combined/0000/simonsobs_combined_uKCMB_saUHF1_nside512_0000.fits")),
       World ∅ (pre ++
         [EvList "/project/projectdirs/sobs/v4_sims/mbs/201906_highres_foregrounds_extragalactic_tophat/512";
          EvCall "str.format"; EvCall "print"; EvCall "hp.read_map";
          EvRead ("/project/projectdirs/sobs/v4_sims/mbs/201906_highres_foregrounds_extragalactic_tophat"
                  ++ "/512/combined/0000/simonsobs_combined_uKCMB_saUHF1_nside512_0000.fits");
          EvRaise "hp.read_map"
            (Exn "FileNotFoundError"
               ("/project/projectdirs/sobs/v4_sims/mbs/201906_highres_foregrounds_extragalactic_tophat"
                ++ "/512/combined/0000/simonsobs_combined_uKCMB_saUHF1_nside512_0000.fits"))])).
Proof.
  exists [EvCall "mapsims.parse_channels"; EvCall "print"; EvCall "getattr";
          EvCall "getattr"; EvCall "getattr"; EvCall "Quantity.to";
          EvCall "mapsims.parse_channels"; EvCall "print";
          EvCall "mapsims.parse_channels"; EvCall "mapsims.parse_channels";
          EvCall "mapsims.parse_channels"; EvOp "+"; EvCall "getattr";
          EvCall "getattr"; EvCall "getattr"; EvCall "print"; EvCall "getattr";
          EvCall "getattr"; EvCall "getattr"; EvCall "print"; EvOp "*";
          EvCall "operator*"; EvCall "getattr"; EvCall "u.cmb_equivalencies";
          EvCall "Quantity.to"; EvOp "*"; EvCall "operator*"; EvOp "/";
          EvCall "operator/"; EvCall "getattr"; EvCall "u.cmb_equivalencies";
          EvCall "Quantity.to"].
  vm_compute. reflexivity.
Qed.

End NotebookClaims.

(** ** Display masks: when the cells fail *)

Module MaskEdges.
Import Np NpFacts Nb1 Nb1Facts.



(** X17.  The two display masks of notebook 1 are independent: after the
    galactic-mask cell and then the scanning-strategy cell, the heap holds
    three different arrays; [m_P] is the amplitude as computed,
    [m_P_masked] holds [UNSEEN] exactly where the mask is [False] and
    [m_P_survey] exactly where there are no hits, so the survey map does
    not carry the galactic mask and the second cell leaves the first
    cell's map as it was. *)
Theorem display_masks_are_independent {T H : Type} `{Dtype T} `{Dtype H}
    (h : heap T) (m_P : loc) (a : list T) (mask : list bool)
    (hitmaps : list (list H)) (hit0 : list H) :
  h !! m_P = Some a -> length mask = length a ->
  hitmaps !! 0%nat = Some hit0 -> length hit0 = length a ->
  exists m_P_masked h1 m_P_survey h2 a1 a2,
    cell_galactic_mask h m_P mask = Some (m_P_masked, h1)
    /\ cell_survey_cut h1 m_P hitmaps = Some (m_P_survey, h2)
    /\ m_P_masked <> m_P /\ m_P_survey <> m_P /\ m_P_survey <> m_P_masked
    /\ h2 !! m_P = Some a /\ h2 !! m_P_masked = Some a1 /\ h2 !! m_P_survey = Some a2
    /\ (forall (p : nat) (x : T) (b : bool), a !! p = Some x -> mask !! p = Some b ->
          a1 !! p = Some (if b then x else UNSEEN))
    /\ (forall (p : nat) (x : T) (c : H), a !! p = Some x -> hit0 !! p = Some c ->
          a2 !! p = Some (if eqz c then UNSEEN else x)).
Proof.
  intros Hl Hlen Hh Hlen0.
  destruct (galactic_mask_spec h m_P a mask Hl Hlen)
    as (l1 & a1 & Hcell1 & Hne1 & Hfresh1 & _ & Hpix1).
  assert (Hl1 : (<[l1 := a1]> h) !! m_P = Some a) by (by rewrite lookup_insert_ne).
  destruct (survey_cut_spec (<[l1 := a1]> h) m_P a hitmaps hit0 Hl1 Hh Hlen0)
    as (l2 & a2 & Hcell2 & Hne2 & Hfresh2 & _ & Hpix2).
  assert (Hne12 : l2 <> l1).
  { intros ->. by rewrite lookup_insert_eq in Hfresh2. }
  exists l1, (<[l1 := a1]> h), l2, (<[l2 := a2]> (<[l1 := a1]> h)), a1, a2.
  split; [done|split; [done|split; [done|split; [done|split; [done|]]]]].
  split; [by rewrite !lookup_insert_ne|].
  split; [by rewrite lookup_insert_ne, lookup_insert_eq|].
  split; [by rewrite lookup_insert_eq|]. split; [exact Hpix1 | exact Hpix2].
Qed.

(** A map of two pixels: the first is outside the galactic mask, the second
    has no hits. *)
Lemma display_masks_are_independent_witness :
  exists m_P_masked h1 m_P_survey h2 a1 a2,
    cell_galactic_mask (T := float) {[ 1%positive := [5%float; 6%float] ]} 1%positive
                       [false; true] = Some (m_P_masked, h1)
    /\ cell_survey_cut (T := float) (H := float) h1 1%positive [[3%float; 0%float]]
         = Some (m_P_survey, h2)
    /\ h2 !! 1%positive = Some [5%float; 6%float]
    /\ h2 !! m_P_masked = Some a1 /\ h2 !! m_P_survey = Some a2
    /\ a1 !! 0%nat = Some UNSEEN_f64 /\ a2 !! 0%nat = Some 5%float
    /\ a2 !! 1%nat = Some UNSEEN_f64.
Proof.
  destruct (display_masks_are_independent (T := float) (H := float)
              {[ 1%positive := [5%float; 6%float] ]} 1%positive [5%float; 6%float]
              [false; true] [[3%float; 0%float]] [3%float; 0%float]
              (lookup_singleton_eq _ _) eq_refl eq_refl eq_refl)
    as (l1 & h1 & l2 & h2 & a1 & a2 & Hc1 & Hc2 & _ & _ & _ & Hsrc & Ha1 & Ha2 & Hp1 & Hp2).
  exists l1, h1, l2, h2, a1, a2.
  split; [exact Hc1|]. split; [exact Hc2|]. split; [exact Hsrc|].
  split; [exact Ha1|]. split; [exact Ha2|].
  split; [exact (Hp1 0%nat 5%float false eq_refl eq_refl)|].
  split; [exact (Hp2 0%nat 5%float 3%float eq_refl eq_refl)|].
  exact (Hp2 1%nat 6%float 0%float eq_refl eq_refl).
Defined.

End MaskEdges.

(** ** Notebook 1: the amplitude under a change of the polarization basis *)

Module AmplitudeFacts.
Import Np NpFacts Arith Transforms.
Local Open Scope R_scope.

Lemma rotated_squares (psi : R) (q u : list R) :
  zip_with Rplus (np_square (rotate_Q psi q u)) (np_square (rotate_U psi q u))
  = zip_with Rplus (np_square q) (np_square u).
Proof.
  unfold np_square, rotate_Q, rotate_U.
  revert u. induction q as [|x q IH]; intros [|y u]; try reflexivity.
  cbn [zip_with]. rewrite !fmap_cons. cbn [zip_with]. rewrite IH. f_equal.
  pose proof (sin2_cos2 psi) as Hsc. unfold Rsqr in Hsc. nra.
Qed.

(** X2.  The polarization amplitude of notebook 1 does not depend on the
    polarization basis: turning [(Q, U)] of every pixel by one angle gives
    the same amplitude map. *)
Theorem amplitude_invariant_under_basis_rotation (psi : R) (i q u : list R) :
  length q = length u ->
  Nb1Amplitude.m_P [i; rotate_Q psi q u; rotate_U psi q u] = Nb1Amplitude.m_P [i; q; u].
Proof.
  intros Hlen. unfold Nb1Amplitude.m_P. simpl.
  rewrite !zip_strict_Some.
  - simpl. by rewrite rotated_squares.
  - unfold np_square. by rewrite !length_fmap.
  - unfold np_square, rotate_Q, rotate_U.
    rewrite !length_fmap, !length_zip_with. lia.
Qed.

(** A quarter turn maps [(Q, U) = (3, 4)] to [(4, -3)]: the amplitude is
    the same. *)
Lemma amplitude_invariant_under_basis_rotation_witness :
  Nb1Amplitude.m_P [[1]; rotate_Q (PI / 2) [3] [4]; rotate_U (PI / 2) [3] [4]]
  = Nb1Amplitude.m_P [[1]; [3]; [4]].
Proof.
  apply (amplitude_invariant_under_basis_rotation (PI / 2) [1] [3] [4]).
  reflexivity.
Defined.

End AmplitudeFacts.

(** ** Hit counts, cut pixels and the sky fraction *)

Module HitmapFacts.
Import Np NpFacts Arith ArithFacts Nb3Facts Transforms.
Local Open Scope R_scope.






















Lemma weighted_row_ignores_unhit (r r' hit0 : list R) :
  length r = length r' ->
  (forall (p : nat) (x x' c : R),
      r !! p = Some x -> r' !! p = Some x' -> hit0 !! p = Some c -> c <> 0 -> x = x') ->
  zip_strict Rmult r hit0 = zip_strict Rmult r' hit0.
Proof.
  intros Hlen Hpix. unfold zip_strict. rewrite <- Hlen.
  destruct (decide (length r = length hit0)); [|done]. f_equal.
  apply list_eq. intros p. rewrite !lookup_zip_with.
  destruct (r !! p) as [x|] eqn:Hx.
  - destruct (r' !! p) as [x'|] eqn:Hx'.
    + simpl. destruct (hit0 !! p) as [c|] eqn:Hc; [|done]. simpl. f_equal.
      destruct (Req_dec_T c 0) as [->|Hc0]; [ring|].
      by rewrite (Hpix p x x' c Hx Hx' Hc Hc0).
    + apply lookup_lt_Some in Hx. apply lookup_ge_None in Hx'. lia.
  - destruct (r' !! p) as [x'|] eqn:Hx'; [|done].
    apply lookup_lt_Some in Hx'. apply lookup_ge_None in Hx. lia.
Qed.

(** X18.  The corrected spectrum of notebook 3 does not depend on what the
    noise map holds in pixels without hits: two maps of one shape that
    agree on every pixel with a non-zero hit count have the same
    hit-weighted map and so the same corrected spectrum, whatever the
    transform is (exact real arithmetic, finite values). *)
Theorem corrected_spectrum_ignores_unhit_pixels
    (anafast : list (list R) -> Z -> list (list R))
    (hitmaps : list (list R)) (hit0 : list R) (sf : R) (m m' : list (list R)) :
  hitmaps !! 0%nat = Some hit0 ->
  shape m = shape m' ->
  (forall (i : nat) r r' (p : nat) (x x' c : R),
      m !! i = Some r -> m' !! i = Some r' ->
      r !! p = Some x -> r' !! p = Some x' -> hit0 !! p = Some c -> c <> 0 -> x = x') ->
  zip_rows Rmult m hit0 = zip_rows Rmult m' hit0
  /\ Nb3.cl_of_map anafast hitmaps sf m = Nb3.cl_of_map anafast hitmaps sf m'.
Proof.
  intros Hh Hshape Hpix.
  assert (Hrows : zip_rows Rmult m hit0 = zip_rows Rmult m' hit0).
  { unfold zip_rows.
    assert (Hall : Forall2 (fun r r' => zip_strict Rmult r hit0 = zip_strict Rmult r' hit0)
                           m m').
    { apply Forall2_same_length_lookup_2.
      - by rewrite <- (length_shape m), Hshape, length_shape.
      - intros i r r' Hr Hr'. apply weighted_row_ignores_unhit.
        + by eapply shape_lookup.
        + intros p x x' c. by eapply Hpix. }
    clear Hshape Hpix. induction Hall as [|r r' m m' Hr _ IH]; [done|].
    simpl. by rewrite Hr, IH. }
  split; [exact Hrows|].
  unfold Nb3.cl_of_map. rewrite Hh. simpl. by rewrite Hrows.
Qed.

(** A map that holds the sentinel in its pixel without hits, and the same
    map with zero there. *)
Lemma corrected_spectrum_ignores_unhit_pixels_witness :
  Nb3.cl_of_map squares_transform [[2; 0]] 1 [[1; UNSEEN_R]]
  = Nb3.cl_of_map squares_transform [[2; 0]] 1 [[1; 0]].
Proof.
  apply (corrected_spectrum_ignores_unhit_pixels squares_transform
           [[2; 0]] [2; 0] 1 [[1; UNSEEN_R]] [[1; 0]]).
  - reflexivity.
  - reflexivity.
  - intros [|i] r r' [|[|p]] x x' c Hr Hr' Hx Hx' Hc Hc0; simplify_eq/=; done.
Defined.

End HitmapFacts.

(** ** Masked maps through the cells of notebooks 2 and 3 *)

Module MaskedFacts.
Import Np NpFacts Ma MaFacts Nb2 Nb2Facts.

Section Cells.
Context {T H : Type} `{Dtype T} `{Dtype H}.

Lemma set_cols_twice {A : Type} (v : A) (row : list A) (idx : list bool) :
  zip_with (fun x (b : bool) => if b then v else x)
           (zip_with (fun x (b : bool) => if b then v else x) row idx) idx
  = zip_with (fun x (b : bool) => if b then v else x) row idx.
Proof.
  revert idx. induction row as [|x row IH]; intros [|b idx]; try reflexivity.
  cbn [zip_with]. rewrite IH. by destruct b.
Qed.

Lemma setitem_cols_twice {A : Type} (v : A) (a a' : list (list A)) (idx : list bool) :
  setitem_cols a idx v = Some a' -> setitem_cols a' idx v = Some a'.
Proof.
  unfold setitem_cols. intros [Hall ->]%zip_rows_inv.
  rewrite zip_rows_Some.
  - f_equal. rewrite <- list_fmap_compose. apply list_fmap_ext.
    intros _ row _. simpl. apply set_cols_twice.
  - apply Forall_fmap. eapply Forall_impl; [exact Hall|]. simpl.
    intros row E. rewrite length_zip_with. lia.
Qed.

Lemma ma_setitem_cols_twice (a a' : marray T) (idx : list bool) (v : T) :
  ma_setitem_cols a idx v = Some a' -> ma_setitem_cols a' idx v = Some a'.
Proof.
  unfold ma_setitem_cols.
  destruct (setitem_cols (ma_data a) idx v) as [d|] eqn:Hd; [|done]. simpl.
  destruct (setitem_cols (ma_mask a) idx false) as [k|] eqn:Hk; [|done]. simpl.
  intros [= <-]. cbn [ma_data ma_mask].
  rewrite (setitem_cols_twice _ _ _ _ Hd). simpl.
  by rewrite (setitem_cols_twice _ _ _ _ Hk).
Qed.

(** X7.  Running the scanning-strategy cell of notebook 2 a second time
    changes nothing: the cut maps are a fixed point of the cut. *)
Theorem scanning_cut_is_idempotent
    (maps maps' : list (marray T)) (hitmaps : list (list H)) :
  scan_cut maps hitmaps = Some maps' -> scan_cut maps' hitmaps = Some maps'.
Proof.
  unfold scan_cut. destruct (hitmaps !! 0%nat) as [hit0|]; [|done]. simpl.
  rewrite !mapM_Some. induction 1 as [|each each' maps maps' Hset _ IH]; constructor.
  - by apply (ma_setitem_cols_twice each).
  - exact IH.
Qed.

End Cells.

(** One map of two pixels, the first without hits. *)
Lemma scanning_cut_is_idempotent_witness :
  scan_cut (T := float) (H := float)
           [MArray [[1%float; 2%float]] [[false; false]]] [[0%float; 1%float]]
    = Some [MArray [[UNSEEN_f64; 2%float]] [[false; false]]]
  /\ scan_cut (T := float) (H := float)
           [MArray [[UNSEEN_f64; 2%float]] [[false; false]]] [[0%float; 1%float]]
    = Some [MArray [[UNSEEN_f64; 2%float]] [[false; false]]].
Proof.
  split; [reflexivity|].
  apply (scanning_cut_is_idempotent (T := float) (H := float)
           [MArray [[1%float; 2%float]] [[false; false]]]).
  reflexivity.
Defined.

Lemma is_unseen_sentinel : is_unseen_R UNSEEN_R = true.
Proof.
  unfold is_unseen_R. destruct (Rle_dec _ _) as [|Hn]; [done|].
  exfalso. apply Hn. replace (UNSEEN_R - UNSEEN_R)%R with 0%R by lra.
  rewrite Rabs_R0. pose proof (Rabs_pos UNSEEN_R).
  assert (0 < / 10 ^ 8)%R by (apply Rinv_0_lt_compat; lra).
  assert (0 < / 10 ^ 5)%R by (apply Rinv_0_lt_compat; lra).
  nra.
Qed.

(** X8.  In notebook 2 a pixel that holds the sentinel in the file read
    (masked by [hp.ma] on loading) and has hits keeps its value and stays
    masked through the cut and [each += dust], whatever the foreground
    holds there. *)
Theorem loaded_sentinel_survives_coaddition
    (raw : list (list (list R))) (hitmaps : list (list R)) (hit0 : list R)
    (dust : list (list R)) :
  hitmaps !! 0%nat = Some hit0 ->
  Forall (Forall (fun row => length row = length hit0)) raw ->
  Forall (fun m => shape m = shape dust) raw ->
  exists out,
    pipeline raw hitmaps dust = Some out
    /\ forall (j : nat) m (i : nat) r d (p : nat) (x y c : R),
         raw !! j = Some m -> m !! i = Some r -> dust !! i = Some d ->
         r !! p = Some x -> hit0 !! p = Some c -> d !! p = Some y ->
         c <> 0%R -> is_unseen x = true ->
         exists each r' k',
           out !! j = Some each
           /\ ma_data each !! i = Some r' /\ ma_mask each !! i = Some k'
           /\ r' !! p = Some x /\ k' !! p = Some true.
Proof.
  intros Hh Hrows Hdust.
  destruct (pipeline_pixel raw hitmaps hit0 dust Hh Hrows Hdust) as (out & Hout & Hpix).
  exists out. split; [done|].
  intros j m i r d p x y c Hm Hr Hd Hx Hc Hy Hz Hu.
  destruct (Hpix j m i r d p x y c Hm Hr Hd Hx Hc Hy)
    as (each & r' & k' & ? & ? & ? & Hv & Hk).
  simpl in Hv, Hk. rewrite (proj2 (Req0_false c) Hz) in Hv, Hk.
  simpl in Hu. rewrite Hu in Hv, Hk.
  exists each, r', k'. repeat split; try done.
  rewrite Hv. f_equal. lra.
Qed.

(** One map of one component whose only pixel is hit and holds the
    sentinel, on a foreground of 7: the pixel ends as the sentinel, masked. *)
Lemma loaded_sentinel_survives_coaddition_witness :
  exists out each r' k',
    pipeline (T := R) (H := R) [[[UNSEEN_R]]] [[1%R]] [[7%R]] = Some out
    /\ out !! 0%nat = Some each
    /\ ma_data each !! 0%nat = Some r' /\ ma_mask each !! 0%nat = Some k'
    /\ r' !! 0%nat = Some UNSEEN_R /\ k' !! 0%nat = Some true.
Proof.
  destruct (loaded_sentinel_survives_coaddition [[[UNSEEN_R]]] [[1%R]] [1%R] [[7%R]])
    as (out & Hout & Hpix).
  - reflexivity.
  - repeat constructor.
  - repeat constructor.
  - destruct (Hpix 0%nat [[UNSEEN_R]] 0%nat [UNSEEN_R] [7%R] 0%nat UNSEEN_R 7%R 1%R)
      as (each & r' & k' & Hrest); try reflexivity.
    + apply R1_neq_R0.
    + exact is_unseen_sentinel.
    + exists out, each, r', k'. split; [exact Hout | exact Hrest].
Defined.

(** X9.  [maps = [each + foregrounds_cmb for each in maps]] of notebook 3,
    pixel by pixel: where the foreground map holds the sentinel the result
    is masked and its data is the noise value; everywhere else it is the
    sum of noise and foreground and is not masked, also where the noise map
    itself holds the sentinel. *)
Theorem noise_plus_foregrounds_pixelwise {T : Type} `{Dtype T}
    (maps : list (list (list T))) (fg : list (list T)) :
  Forall (fun each => shape each = shape fg) maps ->
  exists out,
    Nb3.add_foregrounds maps fg = Some out /\ length out = length maps
    /\ forall (j : nat) each (i : nat) r s (p : nat) (x y : T),
         maps !! j = Some each -> each !! i = Some r -> fg !! i = Some s ->
         r !! p = Some x -> s !! p = Some y ->
         exists res row mrow,
           out !! j = Some res
           /\ ma_data res !! i = Some row /\ ma_mask res !! i = Some mrow
           /\ row !! p = Some (if is_unseen y then x else add x y)
           /\ mrow !! p = Some (is_unseen y).
Proof.
  intros Hshape. unfold Nb3.add_foregrounds.
  assert (Hone : forall j each, maps !! j = Some each -> shape each = shape (ma_data (hp_ma fg))).
  { intros j each Hj. rewrite Forall_lookup in Hshape. exact (Hshape _ _ Hj). }
  destruct (mapM_pointwise (fun each => ma_radd each (hp_ma fg)) maps)
    as (out & Hout & Hlen & Hpt).
  { intros j each Hj.
    destruct (ma_radd_spec each (hp_ma fg) (hp_ma_wf fg) (Hone _ _ Hj)) as (c & Hc & _).
    eauto. }
  exists out. split; [done|split; [done|]].
  intros j each i r s p x y Hj Hr Hs Hx Hy.
  destruct (Hpt j each Hj) as (res & Hres & Hadd).
  destruct (ma_radd_spec each (hp_ma fg) (hp_ma_wf fg) (Hone _ _ Hj))
    as (c & Hc & Hmask & Hpix).
  assert (c = res) by congruence. subst c.
  destruct (hp_ma_mask fg i s p y Hs Hy) as (k & Hk & Hkp).
  destruct (Hpix i r s k p x y (is_unseen y) Hr Hs Hk Hx Hy Hkp) as (t & Ht & Htp).
  exists res, t, k. rewrite Hmask. done.
Qed.

(** One noise map of two pixels on a foreground map whose first pixel is
    the sentinel: the first pixel keeps the noise value and is masked, the
    second is the sum. *)
Lemma noise_plus_foregrounds_pixelwise_witness :
  exists out res row mrow,
    Nb3.add_foregrounds (T := float) [[[1%float; 2%float]]] [[UNSEEN_f64; 5%float]]
      = Some out
    /\ out !! 0%nat = Some res
    /\ ma_data res !! 0%nat = Some row /\ ma_mask res !! 0%nat = Some mrow
    /\ row !! 0%nat = Some 1%float /\ mrow !! 0%nat = Some true.
Proof.
  destruct (noise_plus_foregrounds_pixelwise (T := float)
              [[[1%float; 2%float]]] [[UNSEEN_f64; 5%float]]) as (out & Hout & _ & Hpix).
  - repeat constructor.
  - destruct (Hpix 0%nat [[1%float; 2%float]] 0%nat [1%float; 2%float]
                   [UNSEEN_f64; 5%float] 0%nat 1%float UNSEEN_f64)
      as (res & row & mrow & Hrest); try reflexivity.
    exists out, res, row, mrow. split; [exact Hout | exact Hrest].
Defined.

End MaskedFacts.

(** ** Notebook 6: the observed area and the standardized map *)

Module CarFacts.
Import Np NpFacts Arith ArithFacts Nb6Facts Transforms.
Local Open Scope R_scope.

Lemma masked_area_row (vrow arow : list R) :
  zip_with Rmult (np_square (Nb6.indicator <$> vrow)) arow
  = zip_with (fun v a => if Rpos v then a else 0) vrow arow.
Proof.
  unfold np_square. revert arow.
  induction vrow as [|v vrow IH]; intros [|a arow]; try reflexivity.
  rewrite !fmap_cons. cbn [zip_with]. rewrite IH. f_equal.
  unfold Nb6.indicator. destruct (Rpos v); ring.
Qed.

Lemma masked_area (ivar1 pmap : list (list R)) :
  zip_with (zip_with Rmult) (np_square2 (fmap (M := list) Nb6.indicator <$> ivar1)) pmap
  = observed_area ivar1 pmap.
Proof.
  unfold np_square2, observed_area. revert pmap.
  induction ivar1 as [|vrow ivar1 IH]; intros [|arow pmap]; try reflexivity.
  rewrite !fmap_cons. cbn [zip_with]. by rewrite IH, masked_area_row.
Qed.

Lemma observed_row_bounds (vrow arow : list R) :
  Forall (fun a => 0 <= a) arow ->
  0 <= np_sum (zip_with (fun v a => if Rpos v then a else 0) vrow arow) <= np_sum arow.
Proof.
  intros Hpos. revert vrow.
  induction Hpos as [|a arow Ha Hpos IH]; intros [|v vrow]; cbn [zip_with np_sum foldr].
  - lra.
  - lra.
  - pose proof (np_sum_nonneg arow Hpos). unfold np_sum in *. lra.
  - specialize (IH vrow). unfold np_sum in *. destruct (Rpos v); lra.
Qed.

Lemma observed_area_bounds (ivar1 pmap : list (list R)) :
  Forall (Forall (fun a => 0 <= a)) pmap ->
  0 <= np_sum2 (observed_area ivar1 pmap) <= np_sum2 pmap.
Proof.
  unfold np_sum2, observed_area. intros Hpos. revert ivar1.
  induction Hpos as [|arow pmap Ha Hpos IH]; intros [|vrow ivar1];
    cbn [zip_with]; rewrite ?fmap_cons, ?fmap_nil; cbn [np_sum foldr].
  - lra.
  - lra.
  - pose proof (np_sum_nonneg arow Ha).
    assert (0 <= np_sum (np_sum <$> pmap)).
    { apply np_sum_nonneg, Forall_fmap. eapply Forall_impl; [exact Hpos|].
      simpl. intros row Hrow. by apply np_sum_nonneg. }
    unfold np_sum in *. lra.
  - specialize (IH ivar1). pose proof (observed_row_bounds vrow arow Ha).
    unfold np_sum in *. lra.
Qed.

(** X10.  The normalization [w2] of notebook 6 is the area of the observed
    pixels (inverse variance positive) over the area of the sphere: the
    square of the mask changes nothing, and with pixel areas that are not
    negative the observed area is at most the area of the map. *)
Theorem w2_is_observed_area_fraction (ivar1 pmap : list (list R)) :
  shape pmap = shape ivar1 ->
  Nb6.w2 ivar1 pmap = Some (np_sum2 (observed_area ivar1 pmap) / (4 * PI))
  /\ (Forall (Forall (fun a => 0 <= a)) pmap ->
      0 <= np_sum2 (observed_area ivar1 pmap) <= np_sum2 pmap).
Proof.
  intros Hshape. split; [|apply observed_area_bounds].
  destruct (w2_Some ivar1 pmap Hshape) as [w Hw]. rewrite Hw.
  destruct (w2_inv ivar1 pmap w Hw) as (mask & prod & Hmask & Hprod & ->).
  rewrite car_mask_spec in Hmask. injection Hmask as <-.
  apply zip_strict2_inv in Hprod as [_ ->]. by rewrite masked_area.
Qed.

(** Two pixels of areas 2 and 3, the first observed: [w2] is 2 over the
    area of the sphere. *)
Lemma w2_is_observed_area_fraction_witness :
  Nb6.w2 [[1; 0]] [[2; 3]] = Some (np_sum2 (observed_area [[1; 0]] [[2; 3]]) / (4 * PI))
  /\ np_sum2 (observed_area [[1; 0]] [[2; 3]]) = 2.
Proof.
  split.
  - apply (w2_is_observed_area_fraction [[1; 0]] [[2; 3]]). reflexivity.
  - unfold np_sum2, observed_area. simpl.
    rewrite (proj2 (Rpos_true 1)) by lra.
    unfold Rpos. destruct (Rlt_dec 0 0); lra.
Defined.

Lemma mapM_rdiv_row_inv (r s q : list R) :
  mapM (M := option) (fun c : option R => c) (zip_with rdiv r s) = Some q ->
  q = zip_with Rdiv r s
  /\ forall (i : nat) x y, r !! i = Some x -> s !! i = Some y -> y <> 0.
Proof.
  rewrite mapM_Some. revert s q.
  induction r as [|x r IH]; intros [|y s] q Hq; simpl in Hq.
  - inversion Hq. split; [done|]. intros i ? ? [=].
  - inversion Hq. split; [done|]. intros i ? ? [=].
  - inversion Hq. split; [done|]. intros i ? ? _ [=].
  - inversion Hq as [|? z ? q' Hz Hq']; subst.
    apply rdiv_inv in Hz as [Hy ->].
    destruct (IH s q' Hq') as [-> Hnz]. split; [done|].
    intros [|i] x' y' Hx' Hy'; simplify_eq/=; [done|]. by eapply Hnz.
Qed.

Lemma div_arrays2_inv (a b q : list (list R)) :
  div_arrays2 a b = Some q ->
  shape a = shape b /\ q = zip_with (zip_with Rdiv) a b
  /\ forall (y x : nat) r s v d,
       a !! y = Some r -> b !! y = Some s -> r !! x = Some v -> s !! x = Some d ->
       d <> 0.
Proof.
  unfold div_arrays2.
  destruct (zip_strict2 rdiv a b) as [q0|] eqn:Hq0; [|done].
  apply zip_strict2_inv in Hq0 as [Hshape ->]. intros Hq. split; [done|].
  apply mapM_Some in Hq. clear Hshape. revert b q Hq.
  induction a as [|r a IH]; intros [|s b] q Hq; simpl in Hq.
  - inversion Hq. split; [done|]. intros y x ? ? ? ? [=].
  - inversion Hq. split; [done|]. intros y x ? ? ? ? [=].
  - inversion Hq. split; [done|]. intros y x ? ? ? ? _ [=].
  - inversion Hq as [|? row ? q' Hrow Hq']; subst.
    apply mapM_rdiv_row_inv in Hrow as [-> Hnz].
    destruct (IH b q' Hq') as [-> Hnz']. split; [done|].
    intros [|y] x r' s' v d Hr Hs Hv Hd; simplify_eq/=.
    + by eapply Hnz.
    + by eapply Hnz'.
Qed.

(** X11.  The standardized map [np.sqrt(ivar1/pmap)*tmap1] of notebook 6 has
    a value only when no pixel has area zero; it has the shape of the
    maps, every pixel with a non-negative ratio holds
    [sqrt(ivar / area) * t], and a pixel whose inverse variance is zero
    holds zero whatever the simulated map holds there. *)
Theorem standardized_map_pixelwise (ivar1 pmap tmap1 s : list (list R)) :
  Nb6.standardized ivar1 pmap tmap1 = Some s ->
  shape s = shape ivar1
  /\ forall (y x : nat) vrow arow trow (v a t : R),
       ivar1 !! y = Some vrow -> pmap !! y = Some arow -> tmap1 !! y = Some trow ->
       vrow !! x = Some v -> arow !! x = Some a -> trow !! x = Some t ->
       a <> 0
       /\ exists srow,
            s !! y = Some srow
            /\ (0 <= v / a -> srow !! x = Some (R_sqrt.sqrt (v / a) * t))
            /\ (v = 0 -> srow !! x = Some 0).
Proof.
  unfold Nb6.standardized.
  destruct (div_arrays2 ivar1 pmap) as [q|] eqn:Hq; [|done]. simpl.
  apply div_arrays2_inv in Hq as (Hshape & -> & Hnz).
  intros [Hst ->]%zip_strict2_inv. split.
  - rewrite shape_zip_with2 by done. unfold np_sqrt2, np_sqrt.
    rewrite shape_fmap2. by apply shape_zip_with2.
  - intros y x vrow arow trow v a t Hv Ha Ht Hvx Hax Htx.
    split; [by eapply Hnz|].
    exists (zip_with Rmult (np_sqrt (zip_with Rdiv vrow arow)) trow).
    assert (Hpix : zip_with Rmult (np_sqrt (zip_with Rdiv vrow arow)) trow !! x
                   = Some (R_sqrt.sqrt (v / a) * t)).
    { rewrite lookup_zip_with. unfold np_sqrt.
      rewrite list_lookup_fmap, lookup_zip_with, Hvx. simpl.
      rewrite Hax. simpl. by rewrite Htx. }
    split; [|split].
    + rewrite lookup_zip_with. unfold np_sqrt2.
      rewrite list_lookup_fmap, lookup_zip_with, Hv. simpl.
      rewrite Ha. simpl. by rewrite Ht.
    + intros _. exact Hpix.
    + intros ->. rewrite Hpix. f_equal.
      replace (0 / a) with 0 by (unfold Rdiv; ring).
      rewrite sqrt_0. ring.
Qed.

(** One row of two pixels of area 1, the second without observations. *)
Lemma standardized_map_pixelwise_witness :
  exists s srow,
    Nb6.standardized [[4; 0]] [[1; 1]] [[3; 5]] = Some s
    /\ s !! 0%nat = Some srow /\ srow !! 1%nat = Some 0.
Proof.
  assert (Hs : Nb6.standardized [[4; 0]] [[1; 1]] [[3; 5]]
               = Some (zip_with (zip_with Rmult)
                         (np_sqrt2 (zip_with (zip_with Rdiv) [[4; 0]] [[1; 1]])) [[3; 5]])).
  { unfold Nb6.standardized. rewrite div_arrays2_Some.
    - reflexivity.
    - reflexivity.
    - repeat constructor; lra. }
  destruct (standardized_map_pixelwise [[4; 0]] [[1; 1]] [[3; 5]] _ Hs) as [_ Hpix].
  destruct (Hpix 0%nat 1%nat [4; 0] [1; 1] [3; 5] 0 1 5
                 eq_refl eq_refl eq_refl eq_refl eq_refl eq_refl)
    as (_ & srow & Hrow & _ & Hzero).
  eexists _, srow. split; [exact Hs|]. split; [exact Hrow | exact (Hzero eq_refl)].
Defined.

End CarFacts.

(** ** Release paths: one file per realization and split *)

Module PathFacts.
Import PyFormat PyFormatFacts Notebook Programs Filenames.
Local Open Scope string_scope.

(** The formatted paths for every number, inside and outside the
    four-digit range: the number field is [format(num, "04d")]. *)
Lemma signal_path_shape (nside num : Z) (content telescope band : string) :
  signal_path nside content num telescope band =
    Some (str_int nside ++ "/" ++ content ++ "/" ++ format_int spec_04d num
          ++ "/simonsobs_" ++ content ++ "_uKCMB_" ++ telescope ++ band ++ "_nside"
          ++ str_int nside ++ "_" ++ format_int spec_04d num ++ ".fits").
Proof.
  unfold signal_path, format. rewrite parse_filename_template.
  cbn [render lookup_kw String.eqb Ascii.eqb Bool.eqb option_map py_str].
  rewrite !format_value_04d. cbn [format_value py_str]. reflexivity.
Qed.

Lemma noise_path_shape (nside num split nsplits : Z) (content telescope tube band : string) :
  noise_path nside content num telescope tube band split nsplits =
    Some (content ++ "/" ++ format_int spec_04d num ++ "/simonsobs_" ++ content
          ++ "_uKCMB_" ++ tube ++ "_" ++ band ++ "_nside" ++ str_int nside ++ "_"
          ++ format_int spec_04d num ++ "_" ++ str_int split ++ "_of_"
          ++ str_int nsplits ++ ".fits").
Proof.
  unfold noise_path, format. rewrite parse_noise_filename_template.
  cbn [render lookup_kw String.eqb Ascii.eqb Bool.eqb option_map py_str].
  rewrite !format_value_04d. cbn [format_value py_str]. reflexivity.
Qed.

Lemma append_inj_l (s a b : string) : s ++ a = s ++ b -> a = b.
Proof. induction s as [|c s IH]; simpl; [done|]. intros [= E]. auto. Qed.

(** Decimal numerals: digits only, and read back as the number. *)
Lemma digits_only_app (s t : string) :
  digits_only (s ++ t) = digits_only s && digits_only t.
Proof.
  induction s as [|c s IH]; [done|]. simpl. destruct (digit_of c); [exact IH|done].
Qed.

Lemma digits_only_zeros (n : nat) : digits_only (repeat_char "0" n) = true.
Proof. induction n as [|n IH]; [done|]. exact IH. Qed.

Lemma digits_only_uint (d : Decimal.uint) : digits_only (NilEmpty.string_of_uint d) = true.
Proof. induction d; [done|exact IHd..]. Qed.

Lemma digits_only_str_int (z : Z) : (0 <= z)%Z -> digits_only (str_int z) = true.
Proof.
  intros Hz. unfold str_int. destruct z as [|p|p]; [done| |lia].
  simpl. destruct (Pos.to_uint p); [done|apply digits_only_uint..].
Qed.

Lemma digits_only_format_int (num : Z) :
  (0 <= num)%Z -> digits_only (format_int spec_04d num) = true.
Proof.
  intros Hnum. unfold format_int.
  destruct (Z.ltb_spec num 0); [lia|]. cbn [fs_zero fs_width spec_04d].
  rewrite Z.abs_eq by done.
  rewrite !digits_only_app, digits_only_zeros, digits_only_str_int by done.
  reflexivity.
Qed.

Lemma read_number_zeros (n : nat) (s : string) :
  read_number (repeat_char "0" n ++ s) = read_number s.
Proof.
  unfold read_number. induction n as [|n IH]; [done|].
  rewrite <- IH. simpl.
  destruct (NilEmpty.uint_of_string (repeat_char "0" n ++ s)) as [d|]; reflexivity.
Qed.

Lemma read_number_str_int (z : Z) : (0 <= z)%Z -> read_number (str_int z) = Some z.
Proof.
  intros Hz. unfold read_number, str_int.
  pose proof (DecimalZ.of_to z) as Hof.
  destruct (Z.to_int z) as [d|d] eqn:Hd.
  - rewrite <- Hof. clear. simpl NilZero.string_of_int.
    destruct d;
      [reflexivity|unfold NilZero.string_of_uint; rewrite NilEmpty.usu; reflexivity..].
  - destruct z; simpl in Hd; try discriminate. lia.
Qed.

Lemma read_number_format_int (num : Z) :
  (0 <= num)%Z -> read_number (format_int spec_04d num) = Some num.
Proof.
  intros Hnum. unfold format_int.
  destruct (Z.ltb_spec num 0); [lia|]. cbn [fs_zero fs_width spec_04d].
  rewrite Z.abs_eq by done. change ("" ++ ?x) with x.
  by rewrite read_number_zeros, read_number_str_int.
Qed.

(** A field of digits ends at the first character that is no digit. *)
Lemma digits_delimited (c : ascii) (s1 s2 t1 t2 : string) :
  digit_of c = None -> digits_only s1 = true -> digits_only s2 = true ->
  s1 ++ String c t1 = s2 ++ String c t2 -> s1 = s2 /\ t1 = t2.
Proof.
  intros Hc. revert s2.
  induction s1 as [|a s1 IH]; intros [|b s2] H1 H2; simpl in *.
  - by intros [= ->].
  - intros [= <- _]. by rewrite Hc in H2.
  - intros [= -> _]. by rewrite Hc in H1.
  - intros [= -> E]. destruct (digit_of b); [|done].
    destruct (IH s2 H1 H2 E) as [-> ->]. done.
Qed.

Lemma format_int_inj (num num' : Z) :
  (0 <= num)%Z -> (0 <= num')%Z ->
  format_int spec_04d num = format_int spec_04d num' -> num = num'.
Proof.
  intros H H' E. apply (f_equal read_number) in E.
  rewrite !read_number_format_int in E by done. congruence.
Qed.

Lemma str_int_inj (z z' : Z) :
  (0 <= z)%Z -> (0 <= z')%Z -> str_int z = str_int z' -> z = z'.
Proof.
  intros H H' E. apply (f_equal read_number) in E.
  rewrite !read_number_str_int in E by done. congruence.
Qed.

Ltac cancel_prefix H :=
  repeat first [ apply append_inj_l in H | injection H as H ].

Lemma signal_path_inj (nside num num' : Z) (content telescope band : string) :
  (0 <= num)%Z -> (0 <= num')%Z ->
  signal_path nside content num telescope band
    = signal_path nside content num' telescope band ->
  num = num'.
Proof.
  intros Hn Hn'. rewrite !signal_path_shape. intros [= E].
  cancel_prefix E.
  apply digits_delimited in E as [E _];
    [|reflexivity|by apply digits_only_format_int..].
  by apply format_int_inj.
Qed.

Lemma noise_path_inj (nside num num' split split' nsplits nsplits' : Z)
    (content telescope tube band : string) :
  (0 <= num)%Z -> (0 <= num')%Z -> (0 <= split)%Z -> (0 <= split')%Z ->
  (0 <= nsplits)%Z -> (0 <= nsplits')%Z ->
  noise_path nside content num telescope tube band split nsplits
    = noise_path nside content num' telescope tube band split' nsplits' ->
  num = num' /\ split = split' /\ nsplits = nsplits'.
Proof.
  intros Hn Hn' Hs Hs' Hk Hk'. rewrite !noise_path_shape. intros [= E].
  cancel_prefix E.
  apply digits_delimited in E as [En E];
    [|reflexivity|by apply digits_only_format_int..].
  apply format_int_inj in En; [|done..]. subst num'.
  cancel_prefix E.
  apply digits_delimited in E as [Es E];
    [|reflexivity|by apply digits_only_str_int..].
  apply str_int_inj in Es; [|done..]. subst split'.
  cancel_prefix E.
  apply digits_delimited in E as [Ek _];
    [|reflexivity|by apply digits_only_str_int..].
  apply str_int_inj in Ek; [|done..]. done.
Qed.

(** X12.  The release paths tell realizations and splits apart: for one
    channel, two realization numbers that are not negative give one signal
    path only when they are equal, also beyond the four digits of the
    number field, and two noise paths are equal only when realization,
    split and number of splits are. *)
Theorem release_paths_distinguish_realizations
    (nside num num' split split' nsplits nsplits' : Z)
    (content telescope tube band : string) :
  (0 <= num)%Z -> (0 <= num')%Z ->
  (signal_path nside content num telescope band
     = signal_path nside content num' telescope band -> num = num')
  /\ ((0 <= split)%Z -> (0 <= split')%Z -> (0 <= nsplits)%Z -> (0 <= nsplits')%Z ->
      noise_path nside content num telescope tube band split nsplits
        = noise_path nside content num' telescope tube band split' nsplits' ->
      num = num' /\ split = split' /\ nsplits = nsplits').
Proof.
  intros Hn Hn'. split.
  - by apply signal_path_inj.
  - intros. by eapply noise_path_inj.
Qed.

(** Realizations 7 and 10007 of one channel have different paths. *)
Lemma release_paths_distinguish_realizations_witness :
  signal_path 512 "cmb" 7 "sa" "UHF1" <> signal_path 512 "cmb" 10007 "sa" "UHF1".
Proof.
  intros E.
  destruct (release_paths_distinguish_realizations 512 7 10007 1 1 1 1
              "cmb" "sa" "ST0" "UHF1" ltac:(lia) ltac:(lia)) as [Hsig _].
  specialize (Hsig E). discriminate Hsig.
Defined.

(** *** The file lists of notebooks 2 and 3 *)

Lemma path_join_relative (a : string) (c : ascii) (rest : string) :
  Ascii.eqb c "/" = false ->
  path_join a (String c rest) = strip_slash a ++ "/" ++ String c rest.
Proof. intros E. unfold path_join. by rewrite E. Qed.

Lemma mapM_total {A B : Type} (f : A -> option B) (h : A -> B) (l : list A) :
  (forall x, f x = Some (h x)) -> mapM (M := option) f l = Some (h <$> l).
Proof.
  intros Hf. apply mapM_Some. induction l as [|x l IH]; [constructor|].
  rewrite fmap_cons. by constructor.
Qed.

(** One entry of notebook 2's list, for any realization number. *)
Lemma nb2_filename_shape (telescope band : string) (num : Z) :
  match signal_path 512 "cmb" num (lower telescope) band with
  | Some name => Some (path_join nb2_folder name)
  | None => None
  end
  = Some ("/project/projectdirs/sobs/v4_sims/mbs/201911_lensed_cmb/512/cmb/"
          ++ format_int spec_04d num ++ "/simonsobs_cmb_uKCMB_" ++ lower telescope
          ++ band ++ "_nside512_" ++ format_int spec_04d num ++ ".fits").
Proof.
  rewrite signal_path_shape. reflexivity.
Qed.

(** One entry of notebook 3's list, for any split. *)
Lemma nb3_filename_shape (nside split nsplits : Z) (telescope tube band : string) :
  nb3_filename nside telescope tube band split nsplits
  = Some ("/project/projectdirs/sobs/v4_sims/mbs/202006_noise/noise/0000/simonsobs_noise_uKCMB_"
          ++ tube ++ "_" ++ band ++ "_nside" ++ str_int nside ++ "_0000_"
          ++ str_int split ++ "_of_" ++ str_int nsplits ++ ".fits").
Proof.
  unfold nb3_filename. rewrite noise_path_shape. reflexivity.
Qed.

Lemma nb3_filename_inj (nside split split' nsplits nsplits' : Z)
    (telescope tube band : string) :
  (0 <= split)%Z -> (0 <= split')%Z -> (0 <= nsplits)%Z -> (0 <= nsplits')%Z ->
  nb3_filename nside telescope tube band split nsplits
    = nb3_filename nside telescope tube band split' nsplits' ->
  split = split' /\ nsplits = nsplits'.
Proof.
  intros Hs Hs' Hk Hk'. rewrite !nb3_filename_shape. intros [= E].
  cancel_prefix E.
  apply digits_delimited in E as [Es E];
    [|reflexivity|by apply digits_only_str_int..].
  apply str_int_inj in Es; [|done..]. subst split'.
  cancel_prefix E.
  apply digits_delimited in E as [Ek _];
    [|reflexivity|by apply digits_only_str_int..].
  apply str_int_inj in Ek; [|done..]. done.
Qed.

(** X13.  The list of notebook 2 never fails to build; whatever channel the
    library returned, it names ten files that are pairwise different and
    all lie under the release root. *)
Theorem nb2_lists_ten_distinct_release_files (telescope band : string) :
  exists names,
    nb2_filenames telescope band = Some names
    /\ length names = 10%nat
    /\ NoDup names
    /\ Forall (fun p => under_release p = true) names.
Proof.
  eexists. split; [|split; [|split]].
  - unfold nb2_filenames. apply mapM_total. intros num. apply nb2_filename_shape.
  - by rewrite !length_fmap, length_seq.
  - apply NoDup_fmap_2_strong.
    + intros x y Hx Hy E.
      apply list_elem_of_fmap in Hx as (i & -> & _).
      apply list_elem_of_fmap in Hy as (j & -> & _).
      f_equal. cancel_prefix E.
      apply digits_delimited in E as [E _];
        [|reflexivity|apply digits_only_format_int; lia..].
      apply format_int_inj in E; lia.
    + apply NoDup_fmap_2_strong; [intros ? ? _ _ ?; lia|apply NoDup_seq].
  - apply Forall_fmap, Forall_forall. intros num _. reflexivity.
Qed.

(** X14.  The list of notebook 3 never fails to build; for every channel
    and resolution it names five files, pairwise different and all under
    the release root, and the [telescope] keyword the cell passes has no
    effect on it. *)
Theorem nb3_lists_five_distinct_release_files
    (nside : Z) (telescope telescope' tube band : string) :
  exists names,
    nb3_filenames nside telescope tube band = Some names
    /\ length names = 5%nat
    /\ NoDup names
    /\ Forall (fun p => under_release p = true) names
    /\ nb3_filenames nside telescope' tube band = Some names.
Proof.
  assert (Hlist : forall t,
    nb3_filenames nside t tube band
    = Some ((fun sk : Z * Z =>
               "/project/projectdirs/sobs/v4_sims/mbs/202006_noise/noise/0000/simonsobs_noise_uKCMB_"
               ++ tube ++ "_" ++ band ++ "_nside" ++ str_int nside ++ "_0000_"
               ++ str_int sk.1 ++ "_of_" ++ str_int sk.2 ++ ".fits")
            <$> [(1, 1); (1, 4); (2, 4); (3, 4); (4, 4)]%Z)).
  { intros t. unfold nb3_filenames. rewrite nb3_filename_shape.
    rewrite (mapM_total _ _ _ (fun split => nb3_filename_shape nside split 4 t tube band)).
    reflexivity. }
  eexists. split; [apply Hlist|]. split; [reflexivity|]. split; [|split; [|apply Hlist]].
  - apply NoDup_fmap_2_strong.
    + intros [s k] [s' k'] Hx Hy E. simpl in E.
      assert (Hpos : forall a b : Z,
                (a, b) ∈ [(1, 1); (1, 4); (2, 4); (3, 4); (4, 4)]%Z -> (0 <= a)%Z /\ (0 <= b)%Z).
      { intros a b Hab. repeat (apply elem_of_cons in Hab as [[= -> ->]|Hab]; [lia|]).
        by apply elem_of_nil in Hab. }
      destruct (Hpos _ _ Hx), (Hpos _ _ Hy).
      destruct (nb3_filename_inj nside s s' k k' telescope tube band) as [-> ->]; try done.
      rewrite !nb3_filename_shape. by f_equal.
    + apply (bool_decide_unpack _). by vm_compute.
  - apply Forall_fmap, Forall_forall. intros sk _. reflexivity.
Qed.

End PathFacts.

(** ** What the notebooks read *)

Module ReadFacts.
Import Np Ma Arith PyFormat Notebook Programs ReadProperties PathFacts Inputs.
Local Open Scope nb_scope.

Section Spec.
Variable allowed : String.string -> Prop.

Lemma rs_ret {A : Type} (Q : A -> Prop) (a : A) : Q a -> run_spec allowed Q (ret a).
Proof.
  intros Ha w. exists []. simpl. rewrite app_nil_r.
  split; [done|split; [constructor|]]. by intros ? [= <-].
Qed.

Lemma rs_no_value {A : Type} (Q : A -> Prop) : run_spec allowed Q (@no_value A).
Proof.
  intros w. exists []. simpl. rewrite app_nil_r.
  split; [done|split; [constructor|done]].
Qed.

Lemma rs_raise {A : Type} (Q : A -> Prop) src e : run_spec allowed Q (@raise A src e).
Proof.
  intros w. exists [EvRaise src e]. simpl.
  split; [done|split; [by repeat constructor|done]].
Qed.

Lemma rs_bind {A B : Type} (Q : A -> Prop) (Q' : B -> Prop) (m : NB A) (k : A -> NB B) :
  run_spec allowed Q m -> (forall a, Q a -> run_spec allowed Q' (k a)) ->
  run_spec allowed Q' (bind m k).
Proof.
  intros Hm Hk w. destruct (Hm w) as (evs1 & Hlog1 & Hall1 & Hq).
  unfold bind. destruct (m w) as [[a|e|] w1]; simpl in *.
  - destruct (Hk a (Hq a eq_refl) w1) as (evs2 & Hlog2 & Hall2 & Hq').
    exists (evs1 ++ evs2). rewrite Hlog2, Hlog1, app_assoc.
    split; [done|split; [by apply Forall_app|done]].
  - exists evs1. done.
  - exists evs1. done.
Qed.

Lemma rs_emit (ev : event) : reads_within allowed ev -> run_spec allowed any (emit ev).
Proof.
  intros Hev w. exists [ev]. simpl.
  split; [done|split; [by repeat constructor|done]].
Qed.

Lemma rs_option {A : Type} (Q : A -> Prop) (r : option A) (m : NB A) :
  run_spec allowed Q m -> (forall a, r = Some a -> Q a) ->
  run_spec allowed Q (match r with Some a => ret a | None => m end).
Proof. intros Hm Hr. destruct r; [apply rs_ret; auto|done]. Qed.

Lemma rs_expect {A : Type} src e (r : option A) : run_spec allowed any (expect src e r).
Proof. apply rs_option; [apply rs_raise|done]. Qed.

Lemma rs_defined {A : Type} (r : option A) : run_spec allowed any (defined r).
Proof. apply rs_option; [apply rs_no_value|done]. Qed.

Lemma rs_op {A : Type} name e (r : option A) : run_spec allowed any (op name e r).
Proof.
  eapply rs_bind; [by apply rs_emit|]. intros _ _.
  apply rs_option; [apply rs_raise|done].
Qed.

Lemma rs_op_div {A : Type} (r : option A) : run_spec allowed any (op_div r).
Proof. eapply rs_bind; [by apply rs_emit|]. intros _ _. apply rs_defined. Qed.

Lemma rs_np_call {A : Type} name e (r : option A) : run_spec allowed any (np_call name e r).
Proof.
  eapply rs_bind; [by apply rs_emit|]. intros _ _.
  apply rs_option; [apply rs_raise|done].
Qed.

(** A formatted name that is returned is the one [str.format] gave. *)
Lemma rs_format_path (r : option String.string) :
  run_spec allowed (fun name => r = Some name) (format_path r).
Proof.
  eapply rs_bind; [by apply rs_emit|]. intros _ _.
  apply rs_option; [apply rs_raise|done].
Qed.

Lemma rs_for_each {A : Type} (l : list A) (body : A -> NB unit) :
  (forall x, run_spec allowed any (body x)) -> run_spec allowed any (for_each l body).
Proof.
  intros Hbody. induction l as [|x l IH]; simpl; [by apply rs_ret|].
  eapply rs_bind; [apply Hbody|]. intros _ _. exact IH.
Qed.

(** A comprehension over elements that satisfy [R] returns elements that
    satisfy [Q] when its body does. *)
Lemma rs_list_comp {A B : Type} (R : A -> Prop) (Q : B -> Prop)
    (l : list A) (f : A -> NB B) :
  Forall R l -> (forall x, R x -> run_spec allowed Q (f x)) ->
  run_spec allowed (Forall Q) (list_comp l f).
Proof.
  intros Hl Hf. induction Hl as [|x l Hx _ IH]; simpl; [by apply rs_ret|].
  eapply rs_bind; [by apply Hf|]. intros y Hy.
  eapply rs_bind; [exact IH|]. intros ys Hys. apply rs_ret. by constructor.
Qed.

Lemma rs_shell_ls path : allowed path -> run_spec allowed any (shell_ls path).
Proof. intros Hp. by apply rs_emit. Qed.

Lemma rs_getitem v i : run_spec allowed any (getitem v i).
Proof. destruct v; simpl; first [apply rs_expect | apply rs_raise]. Qed.

Lemma rs_as_arr v : run_spec allowed any (as_arr v).
Proof. destruct v; simpl; first [by apply rs_ret | apply rs_raise]. Qed.
Lemma rs_as_arr2 v : run_spec allowed any (as_arr2 v).
Proof. destruct v; simpl; first [by apply rs_ret | apply rs_raise]. Qed.
Lemma rs_as_bools v : run_spec allowed any (as_bools v).
Proof. destruct v; simpl; first [by apply rs_ret | apply rs_raise]. Qed.
Lemma rs_as_float v : run_spec allowed any (as_float v).
Proof. destruct v; simpl; first [by apply rs_ret | apply rs_raise]. Qed.
Lemma rs_as_int v : run_spec allowed any (as_int v).
Proof. destruct v; simpl; first [by apply rs_ret | apply rs_raise]. Qed.
Lemma rs_as_seq v : run_spec allowed any (as_seq v).
Proof. destruct v; simpl; first [by apply rs_ret | apply rs_raise]. Qed.
Lemma rs_as_channel v : run_spec allowed any (as_channel v).
Proof. destruct v; simpl; first [by apply rs_ret | apply rs_raise]. Qed.
Lemma rs_unpack2 v : run_spec allowed any (unpack2 v).
Proof.
  destruct v as [| | | | | | | | |l|]; simpl; try apply rs_raise.
  destruct l as [|a [|b [|c l]]]; first [by apply rs_ret | apply rs_raise].
Qed.
Lemma rs_unpack3 v : run_spec allowed any (unpack3 v).
Proof.
  destruct v as [| | | | | | | | |l|]; simpl; try apply rs_raise.
  destruct l as [|a [|b [|c [|d l]]]]; first [by apply rs_ret | apply rs_raise].
Qed.
Lemma rs_unpack6 v : run_spec allowed any (unpack6 v).
Proof.
  destruct v as [| | | | | | | | |l|]; simpl; try apply rs_raise.
  destruct l as [|a [|b [|c [|d [|e [|f [|g l]]]]]]]; first [by apply rs_ret | apply rs_raise].
Qed.
Lemma rs_emit_each {A : Type} (l : list A) ev :
  reads_within allowed ev -> run_spec allowed any (emit_each l ev).
Proof. intros Hev. apply rs_for_each. intros _. by apply rs_emit. Qed.

Section WithLibs.
Context `{Libs}.

(** A library call opens nothing the log knows of: it may write its cache
    and raise. *)
Lemma rs_call name args : run_spec allowed any (call name args).
Proof.
  unfold call. eapply rs_bind; [by apply rs_emit|]. intros _ _.
  eapply rs_bind.
  - apply rs_for_each. intros pc w. exists [EvWrite pc.1]. simpl.
    split; [done|split; [by repeat constructor|done]].
  - intros _ _. destruct (lib_call name args); [by apply rs_ret|apply rs_raise].
Qed.

(** [hp.read_map] opens the path it is given, and nothing else. *)
Lemma rs_read_map path opts : allowed path -> run_spec allowed any (read_map path opts).
Proof.
  intros Hp. unfold read_map. eapply rs_bind; [by apply rs_emit|]. intros _ _.
  eapply rs_bind; [by apply rs_emit|]. intros _ _ w.
  destruct (w_fs w !! path) as [content|].
  - destruct (lib_call "hp.read_map" (content :: opts)) as [v|e].
    + by apply (rs_ret any v).
    + apply (rs_raise (A := pyobj) any "hp.read_map" e w).
  - apply (rs_raise (A := pyobj) any "hp.read_map" (Exn "FileNotFoundError" path) w).
Qed.

End WithLibs.


End Spec.

(** The path a cell joins to a release folder lies under the release
    root: the formatted name is relative. *)
Ltac release_path :=
  unfold in_release;
  first
    [ reflexivity
    | match goal with
      | Hn : signal_path _ _ _ _ _ = Some ?n |- context [?n] =>
          rewrite signal_path_shape in Hn; injection Hn as <-; reflexivity
      | Hn : noise_path _ _ _ _ _ _ _ _ = Some ?n |- context [?n] =>
          rewrite noise_path_shape in Hn; injection Hn as <-; reflexivity
      end ].

Ltac rs_names :=
  first [ assumption
        | apply Forall_app; split; [repeat constructor; release_path | assumption] ].

Ltac rs_step :=
  lazymatch goal with
  | |- run_spec _ _ (bind (format_path _) _) =>
      let Hn := fresh "Hname" in
      eapply rs_bind; [apply rs_format_path | intros ? Hn; cbv beta in Hn]
  | |- run_spec _ _ (bind (list_comp _ (fun x => bind (format_path (@?r x)) (@?k x))) _) =>
      eapply rs_bind;
        [ apply (rs_list_comp _ (fun _ => True) in_release);
          [ apply Forall_true; done | intros ? _ ]
        | intros ? ? ]
  | |- run_spec _ _ (bind (list_comp _ (fun x => bind (read_map x _) (@?k x))) _) =>
      eapply rs_bind;
        [ apply (rs_list_comp _ in_release (fun _ => True)); [ rs_names | intros ? ? ]
        | intros ? _ ]
  | |- run_spec _ _ (bind (list_comp _ _) _) =>
      eapply rs_bind;
        [ apply (rs_list_comp _ (fun _ => True) (fun _ => True));
          [ apply Forall_true; done | intros ? _ ]
        | intros ? _ ]
  | |- run_spec _ _ (bind _ _) => eapply rs_bind; [|intros ? _]
  | |- run_spec _ ?Q (ret _) =>
      first [ is_evar Q; apply (rs_ret _ (fun _ => True)); exact I
            | apply rs_ret; first [exact I | release_path] ]
  | |- run_spec _ _ (emit _) => apply rs_emit; exact I
  | |- run_spec _ _ (call _ _) => apply rs_call
  | |- run_spec _ _ (read_map _ _) => apply rs_read_map; first [assumption | release_path]
  | |- run_spec _ _ (shell_ls _) => apply rs_shell_ls; release_path
  | |- run_spec _ _ (for_each _ _) => apply rs_for_each; intros ?
  | |- run_spec _ _ (expect _ _ _) => apply rs_expect
  | |- run_spec _ _ (defined _) => apply rs_defined
  | |- run_spec _ _ (op _ _ _) => apply rs_op
  | |- run_spec _ _ (op_div _) => apply rs_op_div
  | |- run_spec _ _ (np_call _ _ _) => apply rs_np_call
  | |- run_spec _ _ (getitem _ _) => apply rs_getitem
  | |- run_spec _ _ (as_arr _) => apply rs_as_arr
  | |- run_spec _ _ (as_arr2 _) => apply rs_as_arr2
  | |- run_spec _ _ (as_bools _) => apply rs_as_bools
  | |- run_spec _ _ (as_float _) => apply rs_as_float
  | |- run_spec _ _ (as_int _) => apply rs_as_int
  | |- run_spec _ _ (as_seq _) => apply rs_as_seq
  | |- run_spec _ _ (as_channel _) => apply rs_as_channel
  | |- run_spec _ _ (unpack2 _) => apply rs_unpack2
  | |- run_spec _ _ (unpack3 _) => apply rs_unpack3
  | |- run_spec _ _ (unpack6 _) => apply rs_unpack6
  | |- run_spec _ _ (emit_each _ _) => apply rs_emit_each; exact I
  | |- run_spec _ _ (lib_op _ _) => unfold lib_op
  | |- run_spec _ _ (attr _ _) => unfold attr
  | |- run_spec _ _ (nb1_masked _ _) => unfold nb1_masked
  | |- run_spec _ _ (nb1_survey _ _) => unfold nb1_survey
  | |- run_spec _ _ (nb3_cl_of_map _ _ _) => unfold nb3_cl_of_map
  | |- run_spec _ _ (nb3_sky_fraction _) => unfold nb3_sky_fraction
  | |- run_spec _ _ (nb6_plot _ _) => unfold nb6_plot
  | |- run_spec _ _ (nb6_standardized _ _ _) => unfold nb6_standardized
  | |- run_spec _ _ (nb6_cls _ _ _) => unfold nb6_cls
  | |- run_spec _ _ nb6_axes => unfold nb6_axes
  | |- run_spec _ _ (nb6_first _) => unfold nb6_first
  | |- run_spec _ _ _ => cbv zeta
  end.

Ltac rs := repeat rs_step.

Section WithLibs.
Context `{Libs}.








End WithLibs.
End ReadFacts.
